(** * GVA Data Architect: incident filter, CSV export and AI gateway

    A shallow embedding of the dashboard's logic
    ([constants.ts], [services/gemini.ts] and the [App] component) together
    with the properties its specification states about it.

    JavaScript strings are modelled as [string], sequences of code units
    below 256 (which covers all the static data of the application),
    integer-valued numbers as [Z], other numbers as [spec_float], arrays and
    objects read in key order as [list], [undefined] and [null] as [None]. *)

From stdpp Require Import base list.
From Stdlib Require Import ZArith Ascii String Bool Lia DecimalString DecimalZ DecimalPos SpecFloat.

Local Open Scope list_scope.
Local Open Scope string_scope.

(** ** JavaScript built-ins used by the application *)

Module JS.

(** The characters that cannot be written inside a string literal here. *)
Definition dquote : string := String (ascii_of_nat 34) EmptyString.
Definition newline : string := String (ascii_of_nat 10) EmptyString.

(** [c] has a lower-case form of its own: it is one of [A]..[Z], or one
    of the accented capitals at 192..222 (the sign at 215 is not a
    letter). *)
Definition isUpper (c : ascii) : bool :=
  let n := nat_of_ascii c in
  ((65 <=? n)%nat && (n <=? 90)%nat)
  || ((192 <=? n)%nat && (n <=? 222)%nat && negb (n =? 215)%nat).

Definition toLowerChar (c : ascii) : ascii :=
  if isUpper c then ascii_of_nat (nat_of_ascii c + 32) else c.

(** [String.prototype.toLowerCase]. *)
Fixpoint toLowerCase (s : string) : string :=
  match s with
  | EmptyString => EmptyString
  | String c s' => String (toLowerChar c) (toLowerCase s')
  end.

(** [s.startsWith(t)]: the test [includes] performs at each position. *)
Fixpoint startsWith (s t : string) : bool :=
  match t, s with
  | EmptyString, _ => true
  | String _ _, EmptyString => false
  | String d t', String c s' => Ascii.eqb c d && startsWith s' t'
  end.

(** [String.prototype.includes]: is there a position of [s] at which [t]
    occurs? Positions are tried from the left, the end of [s] included. *)
Fixpoint includes (s t : string) : bool :=
  startsWith s t ||
  match s with
  | EmptyString => false
  | String _ s' => includes s' t
  end.

(** [Array.prototype.filter]: visit the elements by increasing index and
    push the accepted ones on a fresh array. *)
Definition Array_filter {A : Type} (p : A -> bool) (l : list A) : list A :=
  fold_left (fun kept x => if p x then (kept ++ [x])%list else kept) l [].

(** White space and line terminators as [String.prototype.trim] sees
    them: tab to carriage return, space, no-break space. *)
Definition isWhiteSpace (c : ascii) : bool :=
  let n := nat_of_ascii c in
  ((9 <=? n)%nat && (n <=? 13)%nat) || (n =? 32)%nat || (n =? 160)%nat.

Fixpoint trimStart (s : string) : string :=
  match s with
  | EmptyString => EmptyString
  | String c s' => if isWhiteSpace c then trimStart s' else s
  end.

(** Drops trailing white space: the result is empty exactly when nothing
    but white space follows. *)
Fixpoint trimEnd (s : string) : string :=
  match s with
  | EmptyString => EmptyString
  | String c s' =>
      match trimEnd s' with
      | EmptyString => if isWhiteSpace c then EmptyString else String c EmptyString
      | r => String c r
      end
  end.

Definition trim (s : string) : string := trimEnd (trimStart s).

(** Truthiness of a string: only the empty string is falsy. *)
Definition truthy_string (s : string) : bool :=
  match s with EmptyString => false | _ => true end.

(** [Number.prototype.toString] on an integer-valued number. The text is
    the one JavaScript gives for the integers a number holds exactly (up
    to 2^53 - 1 in magnitude), which print in plain decimal; statements
    over numbers that are not fixed carry that bound as a hypothesis. *)
Definition Number_toString (z : Z) : string :=
  NilZero.string_of_int (Z.to_int z).

(** Truthiness of a number: [+0], [-0] and [NaN] are falsy. *)
Definition truthy_number (x : spec_float) : bool :=
  match x with
  | S754_zero _ | S754_nan => false
  | _ => true
  end.

(** A cell of a mixed array: the tables and CSV rows hold numbers and
    strings side by side. *)
Inductive Value :=
| Num (z : Z)
| Str (s : string).

Definition ToString (v : Value) : string :=
  match v with
  | Num z => Number_toString z
  | Str s => s
  end.

(** [Array.prototype.join]: the separator goes before every element but
    the one at index 0. *)
Definition Array_join (sep : string) (l : list Value) : string :=
  fst (fold_left
         (fun (acc : string * nat) (x : Value) =>
            let (R, k) := acc in
            ((match k with O => R | S _ => R ++ sep end) ++ ToString x, S k))
         l (EmptyString, O)).

(** [String.prototype.split] with a one-character separator. *)
Fixpoint String_split (sep : ascii) (s : string) : list string :=
  match s with
  | EmptyString => [EmptyString]
  | String c s' =>
      if Ascii.eqb c sep then EmptyString :: String_split sep s'
      else match String_split sep s' with
           | w :: ws => String c w :: ws
           | [] => [String c EmptyString]
           end
  end.

(** [x || d] on a possibly undefined string: the empty string is falsy. *)
Definition or_string (x : option string) (d : string) : string :=
  match x with
  | Some s => if truthy_string s then s else d
  | None => d
  end.

(** [x || []] on a possibly undefined array: every array is truthy. *)
Definition or_array {A : Type} (x : option (list A)) : list A :=
  match x with
  | Some l => l
  | None => []
  end.

End JS.

(** ** [constants.ts] *)

Module Constants.

Record IncidentRecord := {
  date : string;
  state : string;
  city_county : string;
  address : string;
  killed : Z;
  injured : Z;
  source_link : string
}.

Definition MOCK_DATA : list IncidentRecord := [
  {| date := "Jan 8, 2025"; state := "Illinois"; city_county := "Chicago";
     address := "1200 Block of S Western Ave"; killed := 1; injured := 3;
     source_link := "/incident/123456" |};
  {| date := "Jan 8, 2025"; state := "Texas"; city_county := "Dallas";
     address := "Ross Ave"; killed := 0; injured := 4;
     source_link := "/incident/123459" |};
  {| date := "Jan 7, 2025"; state := "California"; city_county := "Los Angeles";
     address := "Wilshire Blvd"; killed := 0; injured := 1;
     source_link := "/incident/123457" |};
  {| date := "Jan 7, 2025"; state := "Texas"; city_county := "Houston";
     address := "Main Street"; killed := 2; injured := 0;
     source_link := "/incident/123458" |};
  {| date := "Jan 6, 2025"; state := "Florida"; city_county := "Miami";
     address := "Brickell Ave"; killed := 1; injured := 1;
     source_link := "/incident/123460" |};
  {| date := "Jan 6, 2025"; state := "Illinois"; city_county := "Rockford";
     address := "State St"; killed := 0; injured := 2;
     source_link := "/incident/123461" |};
  {| date := "Jan 5, 2025"; state := "California"; city_county := "Oakland";
     address := "Broadway"; killed := 3; injured := 0;
     source_link := "/incident/123462" |};
  {| date := "Jan 5, 2025"; state := "Georgia"; city_county := "Atlanta";
     address := "Peachtree St"; killed := 1; injured := 5;
     source_link := "/incident/123463" |};
  {| date := "Jan 4, 2025"; state := "Ohio"; city_county := "Cleveland";
     address := "Euclid Ave"; killed := 0; injured := 1;
     source_link := "/incident/123464" |};
  {| date := "Jan 4, 2025"; state := "Pennsylvania"; city_county := "Philadelphia";
     address := "Broad St"; killed := 2; injured := 2;
     source_link := "/incident/123465" |}
]%Z.

(** [categories] lists the entries of the object in the order
    [Object.entries] gives them. For an object that order is the order of
    the list when the keys are distinct and none is an integer index, as
    in [GVA_10_YEAR_REVIEW]; statements over tables that are not fixed
    carry that as a hypothesis. *)
Record YearlyMetricTable := {
  years : list Z;
  categories : list (string * list JS.Value)
}.

Definition nums (l : list Z) : list JS.Value := map JS.Num l.

Definition GVA_10_YEAR_REVIEW : YearlyMetricTable := {|
  years := [2015; 2016; 2017; 2018; 2019; 2020; 2021; 2022; 2023; 2024]%Z;
  categories := [
    ("Deaths (Willful/Accidental)",
     nums [13777; 15375; 15907; 15071; 15667; 19850; 21383; 20514; 19135; 16725]%Z);
    ("Injuries (Willful/Accidental)",
     nums [26907; 30597; 31353; 28175; 30196; 39526; 40626; 38599; 36562; 31646]%Z);
    ("Mass Shooting", nums [332; 383; 347; 335; 414; 611; 689; 644; 659; 503]%Z);
    ("Mass Murder", nums [21; 25; 20; 19; 31; 21; 28; 36; 40; 30]%Z);
    ("Children [0-11] Killed", nums [202; 231; 234; 198; 211; 303; 313; 314; 301; 250]%Z);
    ("Children [0-11] Injured", nums [477; 434; 487; 464; 485; 701; 745; 679; 644; 547]%Z);
    ("Teens [12-17] Killed", nums [626; 727; 823; 736; 795; 1105; 1278; 1392; 1407; 1171]%Z);
    ("Teens [12-17] Injured",
     nums [2074; 2429; 2439; 2142; 2340; 3067; 3403; 3821; 3896; 3239]%Z);
    ("OIS - Officer Killed", nums [40; 68; 49; 55; 69; 59; 68; 72; 53; 75]%Z);
    ("OIS - Officer Injured", nums [275; 297; 286; 270; 295; 346; 370; 341; 369; 322]%Z);
    ("OIS - Suspect Killed",
     nums [1007; 1152; 1232; 1273; 1290; 1299; 1326; 1397; 1444; 1445]%Z);
    ("Defensive Gun Use",
     nums [1400; 1992; 2118; 1881; 1633; 1551; 1367; 1286; 1286; 1220]%Z);
    ("Unintentional Shooting",
     nums [1995; 2236; 2070; 1693; 1906; 2328; 2022; 1648; 1611; 1436]%Z);
    ("Suicide by Firearm (CDC)",
     (nums [22018; 22938; 23854; 24432; 23941; 24292; 26328; 27038; 27310]%Z
        ++ [JS.Str "Pending"])%list)
  ]
|}.

End Constants.

(** ** The [App] component: incident filter *)

Module App.
Import JS Constants.

(** The callback of [filteredIncidents]. *)
Definition matchesIncident (stateFilter cityFilter : string) (item : IncidentRecord) : bool :=
  let matchesState := includes (toLowerCase (state item)) (toLowerCase stateFilter) in
  let matchesCity := includes (toLowerCase (city_county item)) (toLowerCase cityFilter) in
  matchesState && matchesCity.

(** The filter of [filteredIncidents], over any incident list. *)
Definition filterIncidents (data : list IncidentRecord) (stateFilter cityFilter : string)
  : list IncidentRecord :=
  Array_filter (matchesIncident stateFilter cityFilter) data.

(** [filteredIncidents]: the value for the current filters. *)
Definition filteredIncidents (stateFilter cityFilter : string) : list IncidentRecord :=
  filterIncidents MOCK_DATA stateFilter cityFilter.

(** [useMemo] with the dependencies [[stateFilter, cityFilter]]: the value
    kept from the previous render is reused when both are unchanged. *)
Definition Memo : Type := option ((string * string) * list IncidentRecord).

Definition useMemo_filteredIncidents (memo : Memo) (stateFilter cityFilter : string)
  : list IncidentRecord * Memo :=
  match memo with
  | Some ((s, c), value) =>
      if String.eqb s stateFilter && String.eqb c cityFilter then (value, memo)
      else
        let value' := filteredIncidents stateFilter cityFilter in
        (value', Some ((stateFilter, cityFilter), value'))
  | None =>
      let value' := filteredIncidents stateFilter cityFilter in
      (value', Some ((stateFilter, cityFilter), value'))
  end.

(** The memo after a series of renders, each with its filters. *)
Definition renders (filters : list (string * string)) : Memo :=
  fold_left (fun memo f => snd (useMemo_filteredIncidents memo (fst f) (snd f))) filters None.

(** *** CSV export *)

(** The value of [csvContent] when [downloadSummaryCSV] builds its blob. *)
Definition summaryCSVContent (review : YearlyMetricTable) : string :=
  let years := Array_join "," (map Num (years review)) in
  let csvContent := "Category," ++ years ++ newline in
  fold_left
    (fun (csvContent : string) (entry : string * list Value) =>
       let (cat, vals) := entry in
       csvContent ++ (dquote ++ cat ++ dquote ++ "," ++ Array_join "," vals ++ newline))
    (categories review) csvContent.

Definition incidentHeaders : list Value :=
  [Str "Date"; Str "State"; Str "City/County"; Str "Address"; Str "Killed"; Str "Injured"].

(** One element of [rows]. *)
Definition incidentRow (inc : IncidentRecord) : list Value :=
  [Str (date inc);
   Str (dquote ++ state inc ++ dquote);
   Str (dquote ++ city_county inc ++ dquote);
   Str (dquote ++ address inc ++ dquote);
   Num (killed inc);
   Num (injured inc)].

(** The value of [csvContent] in [downloadFilteredIncidentsCSV]. *)
Definition incidentsCSVContent (filteredIncidents : list IncidentRecord) : string :=
  let headers := incidentHeaders in
  let rows := map incidentRow filteredIncidents in
  Array_join "," headers ++ newline
    ++ Array_join newline (map (fun r => Str (Array_join "," r)) rows).

(** The part of the browser the exporters act on: the object URLs that
    are alive, and the files handed to the user so far. *)
Record Blob := { blobParts : string; blobType : string }.

Record Browser := {
  objectURLs : list (nat * Blob);
  nextObjectURL : nat;
  downloads : list (string * Blob)
}.

Definition createObjectURL (blob : Blob) (b : Browser) : nat * Browser :=
  (nextObjectURL b,
   {| objectURLs := (nextObjectURL b, blob) :: objectURLs b;
      nextObjectURL := S (nextObjectURL b);
      downloads := downloads b |}).

Definition lookupObjectURL (url : nat) (b : Browser) : option Blob :=
  snd <$> List.find (fun e => Nat.eqb (fst e) url) (objectURLs b).

(** Clicking an anchor whose [href] is an object URL and whose [download]
    attribute is [name] saves the blob behind the URL under that name. *)
Definition clickAnchor (href : nat) (name : string) (b : Browser) : Browser :=
  match lookupObjectURL href b with
  | Some blob =>
      {| objectURLs := objectURLs b;
         nextObjectURL := nextObjectURL b;
         downloads := (downloads b ++ [(name, blob)])%list |}
  | None => b
  end.

Definition revokeObjectURL (url : nat) (b : Browser) : Browser :=
  {| objectURLs := List.filter (fun e => negb (Nat.eqb (fst e) url)) (objectURLs b);
     nextObjectURL := nextObjectURL b;
     downloads := downloads b |}.

(** The six lines both exporters end with. *)
Definition saveBlob (csvContent name : string) (b : Browser) : Browser :=
  let blob := {| blobParts := csvContent; blobType := "text/csv" |} in
  let (url, b1) := createObjectURL blob b in
  let b2 := clickAnchor url name b1 in
  revokeObjectURL url b2.

Definition downloadSummaryCSV (b : Browser) : Browser :=
  saveBlob (summaryCSVContent GVA_10_YEAR_REVIEW) "gva_10yr_summary.csv" b.

(** The file name of the incident export; [now] is the text of
    [new Date().toISOString()] at the call. *)
Definition incidentsFileName (now : string) : string :=
  "gva_filtered_incidents_" ++ hd EmptyString (String_split "T" now) ++ ".csv".

Definition downloadFilteredIncidentsCSV
    (filteredIncidents : list IncidentRecord) (now : string) (b : Browser) : Browser :=
  if Nat.eqb (List.length filteredIncidents) 0 then b
  else saveBlob (incidentsCSVContent filteredIncidents) (incidentsFileName now) b.

(** *** Chat panel *)

Inductive Role := user | assistant.

Record ChatMessage := { role : Role; content : string }.

(** The chat state of the component, with the calls of [sendChatMessage]
    that have not settled yet. Events are handled one at a time, and the
    state updates of a handler are committed before the next event is
    handled. *)
Record ChatState := {
  chatHistory : list ChatMessage;
  userInput : string;
  isTyping : bool;
  inFlight : list string
}.

Definition initialChatState : ChatState :=
  {| chatHistory := []; userInput := EmptyString; isTyping := false; inFlight := [] |}.

(** [handleSendMessage] up to its [await]. *)
Definition handleSendMessage (st : ChatState) : ChatState :=
  if negb (truthy_string (trim (userInput st))) || isTyping st then st
  else
    let currentInput := userInput st in
    {| chatHistory := (chatHistory st ++ [{| role := user; content := currentInput |}])%list;
       userInput := EmptyString;
       isTyping := true;
       inFlight := (inFlight st ++ [currentInput])%list |}.

(** [handleSendMessage] after its [await], once the oldest pending call
    has resolved to [response]. *)
Definition handleSendMessage_resume (response : string) (st : ChatState) : ChatState :=
  match inFlight st with
  | [] => st
  | _ :: rest =>
      {| chatHistory :=
           (chatHistory st ++ [{| role := assistant; content := response |}])%list;
         userInput := userInput st;
         isTyping := false;
         inFlight := rest |}
  end.

(** The oldest pending call rejects: the rest of the handler is skipped. *)
Definition handleSendMessage_abort (st : ChatState) : ChatState :=
  {| chatHistory := chatHistory st;
     userInput := userInput st;
     isTyping := isTyping st;
     inFlight := tl (inFlight st) |}.

Inductive ChatEvent :=
| Typed (text : string)
| Submitted
| Resolved (response : string)
| Rejected.

Definition chatStep (st : ChatState) (ev : ChatEvent) : ChatState :=
  match ev with
  | Typed text =>
      {| chatHistory := chatHistory st; userInput := text;
         isTyping := isTyping st; inFlight := inFlight st |}
  | Submitted => handleSendMessage st
  | Resolved response => handleSendMessage_resume response st
  | Rejected => handleSendMessage_abort st
  end.

Definition chatRun (evs : list ChatEvent) : ChatState :=
  fold_left chatStep evs initialChatState.

End App.

(** ** [services/gemini.ts] *)

Module Gemini.
Import JS Constants.

(** A thrown value, or the reason of a rejected promise. *)
Definition error := string.

(** How a call ends: with a value (a fulfilled promise, for an [async]
    function) or with a thrown error (a rejected one). *)
Inductive result (A : Type) :=
| Return (a : A)
| Throw (e : error).
Arguments Return {A} a.
Arguments Throw {A} e.

(** *** The types of the SDK the module uses *)

Inductive GroundingChunk :=
| WebChunk (uri title : option string)
| MapsChunk (uri title : option string).

Record GroundingMetadata := { groundingChunks : option (list GroundingChunk) }.

Record Candidate := { groundingMetadata : option GroundingMetadata }.

Record GenerateContentResponse := {
  response_text : option string;
  candidates : option (list Candidate)
}.

Inductive Tool := googleSearch | googleMaps.

Record LatLng := { latitude : spec_float; longitude : spec_float }.

Record RetrievalConfig := { latLng : LatLng }.

Record ToolConfig := { retrievalConfig : option RetrievalConfig }.

Record GenerateContentConfig := {
  tools : list Tool;
  temperature : option spec_float;
  toolConfig : option ToolConfig;
  systemInstruction : option string
}.

Record GenerateContentParameters := {
  model : string;
  contents : string;
  config : GenerateContentConfig
}.

Record CreateChatParameters := {
  chat_model : string;
  chat_config : GenerateContentConfig;
  chat_history : option (list string)
}.

(** A [Chat] object: what it was created with and the messages sent on
    it so far, oldest first. *)
Record Chat := {
  created_with : CreateChatParameters;
  sent : list string
}.

(** Everything outside the module: the environment, the conversions of
    the language that are not modelled, and the SDK with the endpoint
    behind it. Each SDK entry is given the number of SDK calls made so
    far, so an entry may answer differently from one call to the next. *)
Record Runtime := {
  API_KEY : option string;
  double_toString : spec_float -> string;
  JSON_stringify_table : YearlyMetricTable -> string;
  JSON_stringify_incidents : list IncidentRecord -> string;
  GoogleGenAI_new : nat -> string -> result unit;
  models_generateContent : nat -> GenerateContentParameters -> result GenerateContentResponse;
  chats_create : nat -> CreateChatParameters -> result unit;
  chat_sendMessage : nat -> Chat -> string -> result GenerateContentResponse
}.

(** The state the module acts on: the module variable [currentChat] (a
    reference into the chat objects allocated so far), the requests that
    went out through [generateContent], and the diagnostic channel. *)
Record World := {
  currentChat : option nat;
  heap : list Chat;
  clock : nat;
  requests : list GenerateContentParameters;
  console : list (string * error)
}.

Definition initialWorld : World :=
  {| currentChat := None; heap := []; clock := O; requests := []; console := [] |}.

(** *** Computations that read and write the world and may throw *)

Definition M (A : Type) : Type := World -> result A * World.

Definition ret {A} (a : A) : M A := fun w => (Return a, w).

Definition bind {A B} (m : M A) (k : A -> M B) : M B :=
  fun w =>
    match m w with
    | (Return a, w') => k a w'
    | (Throw e, w') => (Throw e, w')
    end.

Definition try_catch {A} (body : M A) (handler : error -> M A) : M A :=
  fun w =>
    match body w with
    | (Return a, w') => (Return a, w')
    | (Throw e, w') => handler e w'
    end.

Notation "x <- m ;; k" := (bind m (fun x => k))
  (at level 100, m at next level, right associativity).
Notation "m ;;; k" := (bind m (fun _ => k))
  (at level 100, right associativity).

Definition tick (w : World) : World :=
  {| currentChat := currentChat w; heap := heap w; clock := S (clock w);
     requests := requests w; console := console w |}.

Definition console_error (label : string) (e : error) : M unit :=
  fun w =>
    (Return tt,
     {| currentChat := currentChat w; heap := heap w; clock := clock w;
        requests := requests w; console := (console w ++ [(label, e)])%list |}).

Definition get_currentChat : M (option nat) := fun w => (Return (currentChat w), w).

Definition set_currentChat (c : option nat) : M unit :=
  fun w =>
    (Return tt,
     {| currentChat := c; heap := heap w; clock := clock w;
        requests := requests w; console := console w |}).

(** What the two grounded calls resolve to. *)
Record GroundedResponse := { text : string; sources : list GroundingChunk }.

Section WithRuntime.
Variable rt : Runtime.

(** [getAI]. *)
Definition getAI : M unit :=
  fun w => (GoogleGenAI_new rt (clock w) (or_string (API_KEY rt) EmptyString), tick w).

(** [ai.models.generateContent(params)], awaited. The [contents] of a
    request are kept as the text they carry. *)
Definition generateContent (params : GenerateContentParameters)
  : M GenerateContentResponse :=
  fun w =>
    (models_generateContent rt (clock w) params,
     {| currentChat := currentChat w; heap := heap w; clock := S (clock w);
        requests := (requests w ++ [params])%list; console := console w |}).

(** [ai.chats.create(params)]: a new chat object, unless the SDK throws. *)
Definition create (params : CreateChatParameters) : M nat :=
  fun w =>
    match chats_create rt (clock w) params with
    | Return _ =>
        (Return (List.length (heap w)),
         {| currentChat := currentChat w;
            heap := (heap w ++ [{| created_with := params; sent := [] |}])%list;
            clock := S (clock w);
            requests := requests w; console := console w |})
    | Throw e => (Throw e, tick w)
    end.

(** [chat.sendMessage({ message })], awaited, on the object [c] refers
    to; [currentChat!] on [null] is a [TypeError]. *)
Definition sendMessage (c : option nat) (message : string)
  : M GenerateContentResponse :=
  fun w =>
    match c ≫= (fun i => (fun chat => (i, chat)) <$> heap w !! i) with
    | Some (i, chat) =>
        (chat_sendMessage rt (clock w) chat message,
         {| currentChat := currentChat w;
            heap := <[i := {| created_with := created_with chat;
                              sent := (sent chat ++ [message])%list |}]> (heap w);
            clock := S (clock w);
            requests := requests w; console := console w |})
    | None => (Throw "TypeError: Cannot read properties of null", w)
    end.

Definition groundingChunksOf (response : GenerateContentResponse)
  : option (list GroundingChunk) :=
  match candidates response with
  | Some (candidate :: _) =>
      match groundingMetadata candidate with
      | Some metadata => groundingChunks metadata
      | None => None
      end
  | _ => None
  end.

Definition reportPrompt (aggregateData recentData : string) : string :=
  "You are a Senior Data Analyst specializing in public safety. " ++ newline ++
  "          Analyze the following GVA datasets:" ++ newline ++
  "          " ++ newline ++
  "          1. 10-YEAR AGGREGATE REVIEW: " ++ aggregateData ++ newline ++
  "          2. RECENT INCIDENT SAMPLE: " ++ recentData ++ newline ++
  "          " ++ newline ++
  "          Provide a comprehensive Markdown report that includes:" ++ newline ++
  "          - A summary of key trends over the last decade." ++ newline ++
  "          - Analysis of most frequent states/cities mentioned in recent reports vs historical hotspots." ++ newline ++
  "          - Calculation/estimation of average casualties per year and per incident based on provided data." ++ newline ++
  "          - Temporal patterns (e.g., year-over-year shifts, seasonal peaks)." ++ newline ++
  "          " ++ newline ++
  "          Use Google Search to cross-reference these findings with current national safety reports or legislative changes that might explain these patterns." ++ newline ++
  "          " ++ newline ++
  "          Format with clear headings, bullet points, and a concluding executive summary.".

(** The double written [0.3]. *)
Definition temperature_0_3 : spec_float := S754_finite false 5404319552844595 (-54).

Definition reportRequest : GenerateContentParameters :=
  let aggregateData := JSON_stringify_table rt GVA_10_YEAR_REVIEW in
  let recentData := JSON_stringify_incidents rt MOCK_DATA in
  {| model := "gemini-3-flash-preview";
     contents := reportPrompt aggregateData recentData;
     config := {| tools := [googleSearch];
                  temperature := Some temperature_0_3;
                  toolConfig := None;
                  systemInstruction := None |} |}.

Definition reportFallback : GroundedResponse :=
  {| text := "Error generating report. Please check your API key and connection.";
     sources := [] |}.

Definition generateEnhancedDataReport : M GroundedResponse :=
  try_catch
    (getAI ;;;
     response <- generateContent reportRequest ;;
     ret {| text := or_string (response_text response) "No analysis available.";
            sources := or_array (groundingChunksOf response) |})
    (fun error =>
       console_error "Enhanced Report Error:" error ;;;
       ret reportFallback).

(** [lat && lng] as a condition, with the two numbers it guards. *)
Definition latAndLng (lat lng : option spec_float) : option (spec_float * spec_float) :=
  match lat, lng with
  | Some la, Some ln =>
      if truthy_number la && truthy_number ln then Some (la, ln) else None
  | _, _ => None
  end.

Definition locationPrompt (lat lng : option spec_float) : string :=
  match latAndLng lat lng with
  | Some (la, ln) =>
      "Near my current location (Lat: " ++ double_toString rt la
        ++ ", Lng: " ++ double_toString rt ln ++ ")"
  | None => "In major US metropolitan areas"
  end.

Definition resourcesRequest (lat lng : option spec_float) : GenerateContentParameters :=
  {| model := "gemini-2.5-flash";
     contents :=
       "Find 5 highly-rated community safety centers, trauma support groups, or victim advocate offices "
         ++ locationPrompt lat lng
         ++ ". Provide their details and why they are important for public safety.";
     config :=
       {| tools := [googleMaps];
          temperature := None;
          toolConfig :=
            Some {| retrievalConfig :=
                      match latAndLng lat lng with
                      | Some (la, ln) =>
                          Some {| latLng := {| latitude := la; longitude := ln |} |}
                      | None => None
                      end |};
          systemInstruction := None |} |}.

Definition resourcesFallback : GroundedResponse :=
  {| text := "Error finding local resources."; sources := [] |}.

Definition findLocalSafetyResources (lat lng : option spec_float) : M GroundedResponse :=
  try_catch
    (getAI ;;;
     response <- generateContent (resourcesRequest lat lng) ;;
     ret {| text := or_string (response_text response) "No resources found.";
            sources := or_array (groundingChunksOf response) |})
    (fun error =>
       console_error "Maps Grounding Error:" error ;;;
       ret resourcesFallback).

Definition SYSTEM_INSTRUCTION : string :=
  "You are the GVA Data Architect, an elite AI expert in public safety, criminology, and data science. " ++ newline ++
  "      You have access to a 10-year dataset of gun violence metrics and a sample of recent incidents." ++ newline ++
  "      Your goal is to provide deep, evidence-based, and compassionate analysis. " ++ newline ++
  "      When asked about data methodology, explain the scraping process (Selenium/BeautifulSoup) and the importance of data normalization." ++ newline ++
  "      Always maintain a professional and analytical tone.".

Definition proChatParameters : CreateChatParameters :=
  {| chat_model := "gemini-3-pro-preview";
     chat_config := {| tools := []; temperature := None; toolConfig := None;
                       systemInstruction := Some SYSTEM_INSTRUCTION |};
     chat_history := None |}.

Definition startProChat : M nat :=
  getAI ;;;
  chat <- create proChatParameters ;;
  set_currentChat (Some chat) ;;;
  ret chat.

Definition chatFallback : string :=
  "The AI Expert is currently unavailable. Please check your configuration.".

Definition sendChatMessage (message : string) : M string :=
  cur <- get_currentChat ;;
  (match cur with
   | None => startProChat ;;; ret tt
   | Some _ => ret tt
   end) ;;;
  try_catch
    (cur' <- get_currentChat ;;
     response <- sendMessage cur' message ;;
     ret (or_string (response_text response) "No response received from the model."))
    (fun error =>
       console_error "Chat Error:" error ;;;
       ret chatFallback).

(** The entry points of the module, and a run of calls from a world. *)
Inductive Call :=
| CallGenerateReport
| CallFindResources (lat lng : option spec_float)
| CallStartProChat
| CallSendChatMessage (message : string).

Definition exec (w : World) (c : Call) : World :=
  match c with
  | CallGenerateReport => snd (generateEnhancedDataReport w)
  | CallFindResources lat lng => snd (findLocalSafetyResources lat lng w)
  | CallStartProChat => snd (startProChat w)
  | CallSendChatMessage message => snd (sendChatMessage message w)
  end.

Definition execAll (calls : list Call) (w : World) : World := fold_left exec calls w.

End WithRuntime.

(** The two states of the chat session. *)
Inductive SessionState := UNINITIALIZED | ACTIVE.

Definition sessionState (w : World) : SessionState :=
  match currentChat w with
  | None => UNINITIALIZED
  | Some _ => ACTIVE
  end.

End Gemini.

(** ** The [App] component: handlers that call the gateway, and views *)

Module Handlers.
Import JS Constants App Gemini.

(** *** Report panel *)

Record ReportPanel := {
  reportData : option GroundedResponse;
  isGeneratingReport : bool
}.

(** [handleGenerateReport] up to its [await]: the call of
    [generateEnhancedDataReport] is now pending. *)
Definition handleGenerateReport (st : ReportPanel) : ReportPanel :=
  {| reportData := reportData st; isGeneratingReport := true |}.

(** [handleGenerateReport] after its [await], once the awaited call has
    settled: a rejection skips the rest of the handler. As long as the
    call has not settled, nothing of this runs. *)
Definition handleGenerateReport_resume (outcome : result GroundedResponse)
    (st : ReportPanel) : ReportPanel :=
  match outcome with
  | Return data => {| reportData := Some data; isGeneratingReport := false |}
  | Throw _ => st
  end.

(** *** Intelligence panel *)

Record IntelPanel := {
  intelResponse : option GroundedResponse;
  isIntelLoading : bool
}.

(** What the browser does with the position request: there is no
    [geolocation] in [navigator], the success callback is called with a
    position, the error callback is called, or no callback is ever
    called. *)
Inductive Geolocation :=
| GeoMissing
| GeoPosition (latitude longitude : spec_float)
| GeoError
| GeoSilent.

(** [handleMapsGrounding] up to the position request. *)
Definition handleMapsGrounding (st : IntelPanel) : IntelPanel :=
  {| intelResponse := intelResponse st; isIntelLoading := true |}.

(** The arguments of the call of [findLocalSafetyResources] the handler
    or its callback makes, if it makes one. *)
Definition lookupArguments (nav : Geolocation)
  : option (option spec_float * option spec_float) :=
  match nav with
  | GeoMissing => Some (None, None)
  | GeoPosition latitude longitude => Some (Some latitude, Some longitude)
  | GeoError => Some (None, None)
  | GeoSilent => None
  end.

(** The handler or its callback after its [await], once the awaited call
    has settled. *)
Definition handleMapsGrounding_resume (outcome : result GroundedResponse)
    (st : IntelPanel) : IntelPanel :=
  match outcome with
  | Return data => {| intelResponse := Some data; isIntelLoading := false |}
  | Throw _ => st
  end.

(** *** Chat panel *)

(** The component calls [startProChat] once, when it is mounted; what
    follows is any run of calls of the module. *)
Definition afterMount (rt : Runtime) (calls : list Call) : World :=
  execAll rt (CallStartProChat :: calls) initialWorld.

(** [handleSendMessage] after its [await], once the awaited call has
    settled. *)
Definition handleSendMessage_settle (outcome : result string) (st : ChatState)
  : ChatState :=
  match outcome with
  | Return response => handleSendMessage_resume response st
  | Throw _ => handleSendMessage_abort st
  end.

(** *** Incident detail *)

(** The [href] of the archive link of the selected incident, when its
    [source_link] is truthy. *)
Definition sourceLinkHref (source_link : string) : option string :=
  if truthy_string source_link then
    Some (if startsWith source_link "http" then source_link
          else "https://www.gunviolencearchive.org" ++ source_link)
  else None.

(** *** Research tab *)

Record WorkflowStep := {
  step_id : string;
  step_title : string;
  step_description : string;
  step_codeSnippet : string
}.

Definition workflowSteps : list WorkflowStep := [
  {| step_id := "driver";
     step_title := "Environment Config";
     step_description :=
       "Headless Chrome setup with residential User-Agent spoofing to access GVA archive records.";
     step_codeSnippet := "options.add_argument(" ++ dquote ++ "user-agent=..." ++ dquote ++ ")" |};
  {| step_id := "nav";
     step_title := "Dynamic Targeting";
     step_description :=
       "Navigation to time-windowed reports with specific WebDriverWait for table integrity.";
     step_codeSnippet := "WebDriverWait(driver, 15).until(...)" |};
  {| step_id := "parse";
     step_title := "Semantic Extraction";
     step_description :=
       "Deep parsing of HTML table rows into normalized incident objects.";
     step_codeSnippet := "incident = { " ++ dquote ++ "date" ++ dquote ++ ": cols[0].text, ... }" |}
].

(** [useState(workflowSteps[0].id)]. *)
Definition initialWorkflowStep : string :=
  match workflowSteps with
  | step :: _ => step_id step
  | [] => EmptyString
  end.

(** A click on the [k]-th rendered node: [setActiveWorkflowStep(step.id)]. *)
Definition clickWorkflowNode (activeWorkflowStep : string) (k : nat) : string :=
  match nth_error workflowSteps k with
  | Some step => step_id step
  | None => activeWorkflowStep
  end.

(** [workflowSteps.find(s => s.id === activeWorkflowStep)]. *)
Definition findActiveStep (activeWorkflowStep : string) : option WorkflowStep :=
  List.find (fun s => String.eqb (step_id s) activeWorkflowStep) workflowSteps.

(** The [isActive] property of the node of [step]. *)
Definition isActive (activeWorkflowStep : string) (step : WorkflowStep) : bool :=
  String.eqb activeWorkflowStep (step_id step).

End Handlers.

(** ** The specification's side: containment up to case, the CSV
    templates, a reader for the summary CSV, and invariants *)

Module Spec.
Import JS Constants.

(** The capital letters among the code units below 256, by their codes:
    [A] to [Z] (65 to 90) and the accented capitals (192 to 222, the
    multiplication sign at 215 apart). The small letter of a capital is
    32 further on. *)
Definition capital (n : nat) : Prop :=
  (65 <= n /\ n <= 90) \/ (192 <= n /\ n <= 222 /\ n <> 215).

(** Two characters are the same letter up to case: the same character, or
    a capital and its small letter. *)
Definition same_letter (c d : ascii) : Prop :=
  c = d
  \/ (capital (nat_of_ascii c) /\ nat_of_ascii d = nat_of_ascii c + 32)
  \/ (capital (nat_of_ascii d) /\ nat_of_ascii c = nat_of_ascii d + 32).

Fixpoint eq_ignore_case (a b : string) : Prop :=
  match a, b with
  | EmptyString, EmptyString => True
  | String c a', String d b' => same_letter c d /\ eq_ignore_case a' b'
  | _, _ => False
  end.

(** [s] contains an occurrence of [q] up to the case of letters. *)
Definition contains_ignore_case (s q : string) : Prop :=
  exists pre mid post, s = pre ++ mid ++ post /\ eq_ignore_case mid q.

(** *** CSV templates, as the specification writes them *)

Definition commas (cells : list string) : string := String.concat "," cells.

(** Every line followed by a newline. *)
Fixpoint unlines (lines : list string) : string :=
  match lines with
  | [] => EmptyString
  | l :: ls => l ++ newline ++ unlines ls
  end.

(** ["<cat>",<v1>,<v2>,...] *)
Definition summary_line (entry : string * list Value) : string :=
  dquote ++ fst entry ++ dquote ++ "," ++ commas (map ToString (snd entry)).

(** [Category,2015,2016,...\n"<cat>",<v1>,<v2>,...\n] *)
Definition summary_template (t : YearlyMetricTable) : string :=
  unlines (("Category," ++ commas (map Number_toString (years t)))
             :: map summary_line (categories t)).

(** [<date>,"<state>","<city>","<address>",<killed>,<injured>] *)
Definition incident_line (r : IncidentRecord) : string :=
  date r ++ "," ++ dquote ++ state r ++ dquote ++ ","
    ++ dquote ++ city_county r ++ dquote ++ ","
    ++ dquote ++ address r ++ dquote ++ ","
    ++ Number_toString (killed r) ++ "," ++ Number_toString (injured r).

Definition incident_header : string := "Date,State,City/County,Address,Killed,Injured".

(** [Date,State,City/County,Address,Killed,Injured\n<date>,...,<injured>\n] *)
Definition incidents_template (l : list IncidentRecord) : string :=
  unlines (incident_header :: map incident_line l).

(** The summary CSV, written out. *)
Definition summary_csv_expected : string :=
  unlines [
    "Category,2015,2016,2017,2018,2019,2020,2021,2022,2023,2024";
    dquote ++ "Deaths (Willful/Accidental)" ++ dquote ++ ",13777,15375,15907,15071,15667,19850,21383,20514,19135,16725";
    dquote ++ "Injuries (Willful/Accidental)" ++ dquote ++ ",26907,30597,31353,28175,30196,39526,40626,38599,36562,31646";
    dquote ++ "Mass Shooting" ++ dquote ++ ",332,383,347,335,414,611,689,644,659,503";
    dquote ++ "Mass Murder" ++ dquote ++ ",21,25,20,19,31,21,28,36,40,30";
    dquote ++ "Children [0-11] Killed" ++ dquote ++ ",202,231,234,198,211,303,313,314,301,250";
    dquote ++ "Children [0-11] Injured" ++ dquote ++ ",477,434,487,464,485,701,745,679,644,547";
    dquote ++ "Teens [12-17] Killed" ++ dquote ++ ",626,727,823,736,795,1105,1278,1392,1407,1171";
    dquote ++ "Teens [12-17] Injured" ++ dquote ++ ",2074,2429,2439,2142,2340,3067,3403,3821,3896,3239";
    dquote ++ "OIS - Officer Killed" ++ dquote ++ ",40,68,49,55,69,59,68,72,53,75";
    dquote ++ "OIS - Officer Injured" ++ dquote ++ ",275,297,286,270,295,346,370,341,369,322";
    dquote ++ "OIS - Suspect Killed" ++ dquote ++ ",1007,1152,1232,1273,1290,1299,1326,1397,1444,1445";
    dquote ++ "Defensive Gun Use" ++ dquote ++ ",1400,1992,2118,1881,1633,1551,1367,1286,1286,1220";
    dquote ++ "Unintentional Shooting" ++ dquote ++ ",1995,2236,2070,1693,1906,2328,2022,1648,1611,1436";
    dquote ++ "Suicide by Firearm (CDC)" ++ dquote ++ ",22018,22938,23854,24432,23941,24292,26328,27038,27310,Pending"
  ].

(** *** Reading the summary CSV back *)

(** The lines of a text whose lines all end with a newline. *)
Definition lines_of (text : string) : list string :=
  match rev (String_split (ascii_of_nat 10) text) with
  | EmptyString :: rest => rev rest
  | pieces => rev pieces
  end.

Definition parse_number (cell : string) : option Z :=
  Z.of_int <$> NilZero.int_of_string cell.

(** A cell that reads as a number is that number, any other is its text. *)
Definition parse_cell (cell : string) : Value :=
  match parse_number cell with
  | Some z => Num z
  | None => Str cell
  end.

(** Splits ["<cat>",<cells>] into [<cat>] and [<cells>]. *)
Definition unquote_category (line : string) : option (string * string) :=
  match String_split (ascii_of_nat 34) line with
  | [EmptyString; cat; String c cells] =>
      if Ascii.eqb c "," then Some (cat, cells) else None
  | _ => None
  end.

Definition parse_row (years : list Z) (line : string) : option (string * list (Z * Value)) :=
  match unquote_category line with
  | Some (cat, cells) =>
      let vals := map parse_cell (String_split "," cells) in
      if Nat.eqb (List.length vals) (List.length years)
      then Some (cat, combine years vals)
      else None
  | None => None
  end.

Definition parseSummaryCSV (text : string) : option (list (string * list (Z * Value))) :=
  match lines_of text with
  | header :: rows =>
      match String_split "," header with
      | first :: ys =>
          if String.eqb first "Category"
          then years ← mapM parse_number ys; mapM (parse_row years) rows
          else None
      | [] => None
      end
  | [] => None
  end.

(** The mapping the table stands for: per category, the value of each year. *)
Definition table_mapping (t : YearlyMetricTable) : list (string * list (Z * Value)) :=
  map (fun entry => (fst entry, combine (years t) (snd entry))) (categories t).

(** [c] does not occur in [s]. *)
Fixpoint avoids (c : ascii) (s : string) : bool :=
  match s with
  | EmptyString => true
  | String d s' => negb (Ascii.eqb d c) && avoids c s'
  end.

(** A cell the CSV can carry: a number, or a text free of separators that
    does not read as a number. *)
Definition plain_cell (v : Value) : bool :=
  match v with
  | Num _ => true
  | Str s =>
      avoids "," s && avoids (ascii_of_nat 34) s && avoids (ascii_of_nat 10) s
      && match parse_number s with Some _ => false | None => true end
  end.

(** A table the CSV can carry: at least one year, category names free of
    double quotes and newlines, one plain cell per year in every row. *)
Definition plain_table (t : YearlyMetricTable) : bool :=
  negb (Nat.eqb (List.length (years t)) 0)
  && forallb
       (fun entry : string * list Value =>
          avoids (ascii_of_nat 34) (fst entry) && avoids (ascii_of_nat 10) (fst entry)
          && Nat.eqb (List.length (snd entry)) (List.length (years t))
          && forallb plain_cell (snd entry))
       (categories t).

(** An integer a JavaScript number holds exactly. *)
Definition safe_integer (z : Z) : bool := (Z.abs z <=? 9007199254740991)%Z.

Definition safe_cell (v : Value) : bool :=
  match v with
  | Num z => safe_integer z
  | Str _ => true
  end.

(** A key that is no integer index: it does not start with a digit. *)
Definition ordinary_key (k : string) : bool :=
  match k with
  | EmptyString => true
  | String c _ => negb ((48 <=? nat_of_ascii c)%nat && (nat_of_ascii c <=? 57)%nat)
  end.

Fixpoint distinct_keys (keys : list string) : bool :=
  match keys with
  | [] => true
  | k :: ks => negb (existsb (String.eqb k) ks) && distinct_keys ks
  end.

(** A table as the code can hold one: its numbers are exact integers, and
    its categories are the entries of an object in insertion order (keys
    distinct, none an integer index). *)
Definition object_table (t : YearlyMetricTable) : bool :=
  forallb safe_integer (years t)
  && distinct_keys (map fst (categories t))
  && forallb (fun entry : string * list Value =>
                ordinary_key (fst entry) && forallb safe_cell (snd entry))
       (categories t).

(** Nothing but white space. *)
Fixpoint all_white (s : string) : bool :=
  match s with
  | EmptyString => true
  | String c s' => isWhiteSpace c && all_white s'
  end.

(** *** Invariants *)

(** While a call is pending the panel is typing, and it is the only one. *)
Definition chat_invariant (st : App.ChatState) : Prop :=
  App.inFlight st = []
  \/ (App.isTyping st = true /\ exists m, App.inFlight st = [m]).

(** The memo holds the filter of the filters it was computed for. *)
Definition memo_sound (memo : App.Memo) : Prop :=
  match memo with
  | Some ((s, c), value) => value = App.filteredIncidents s c
  | None => True
  end.

(** [currentChat] refers to a chat object that exists. *)
Definition session_valid (w : Gemini.World) : Prop :=
  forall c, Gemini.currentChat w = Some c -> c < List.length (Gemini.heap w).

(** *** More invariants *)

(** The roles of [n] completed exchanges. *)
Fixpoint exchanges (n : nat) : list App.Role :=
  match n with
  | O => []
  | S n' => App.user :: App.assistant :: exchanges n'
  end.

(** Every live object URL was handed out before the next one. *)
Definition browser_ok (b : App.Browser) : bool :=
  forallb (fun e => Nat.ltb (fst e) (App.nextObjectURL b)) (App.objectURLs b).

End Spec.

(** ** Endpoints to run the module against *)

Module Mock.
Import JS Gemini.

Definition answer (reply : string) : GenerateContentResponse :=
  {| response_text := Some reply; candidates := None |}.

(** An endpoint that answers every call. *)
Definition answering : Runtime :=
  {| API_KEY := Some "key";
     double_toString := fun _ => "0";
     JSON_stringify_table := fun _ => "{}";
     JSON_stringify_incidents := fun _ => "[]";
     GoogleGenAI_new := fun _ _ => Return tt;
     models_generateContent := fun _ _ => Return (answer "report");
     chats_create := fun _ _ => Return tt;
     chat_sendMessage := fun _ _ message => Return (answer message) |}.

(** An endpoint behind an SDK that cannot be set up: the constructor of
    the client throws, as does everything else. *)
Definition failing : Runtime :=
  {| API_KEY := None;
     double_toString := fun _ => "0";
     JSON_stringify_table := fun _ => "{}";
     JSON_stringify_incidents := fun _ => "[]";
     GoogleGenAI_new := fun _ _ => Throw "API key missing";
     models_generateContent := fun _ _ => Throw "unreachable";
     chats_create := fun _ _ => Throw "unreachable";
     chat_sendMessage := fun _ _ _ => Throw "unreachable" |}.

(** An SDK that sets up and creates chats, in front of an endpoint that
    refuses every request. *)
Definition refusing : Runtime :=
  {| API_KEY := Some "key";
     double_toString := fun _ => "0";
     JSON_stringify_table := fun _ => "{}";
     JSON_stringify_incidents := fun _ => "[]";
     GoogleGenAI_new := fun _ _ => Return tt;
     models_generateContent := fun _ _ => Throw "503";
     chats_create := fun _ _ => Return tt;
     chat_sendMessage := fun _ _ _ => Throw "503" |}.

End Mock.

Import JS Constants App Gemini Handlers Spec.

(** Unfolds an entry point of the module down to the answers of the SDK. *)
Ltac run_gateway :=
  unfold generateEnhancedDataReport, findLocalSafetyResources, sendChatMessage,
    startProChat, try_catch, bind, getAI, generateContent, create, sendMessage,
    get_currentChat, set_currentChat, console_error, ret, tick;
  simpl.

(** ** Strings *)

Lemma append_empty_r (s : string) : s ++ EmptyString = s.
Proof. induction s as [|c s IH]; simpl; [reflexivity | now rewrite IH]. Qed.

Lemma append_assoc (a b c : string) : (a ++ b) ++ c = a ++ (b ++ c).
Proof. induction a as [|x a IH]; simpl; [reflexivity | now rewrite IH]. Qed.

Lemma startsWith_spec (s t : string) :
  startsWith s t = true <-> exists post, s = t ++ post.
Proof.
  revert s. induction t as [|d t IH]; intros s; simpl.
  - split; [intros _; now exists s | intros _; now destruct s].
  - destruct s as [|c s].
    + split; [discriminate | intros [post H]; discriminate].
    + simpl. rewrite andb_true_iff, IH. split.
      * intros [Hc [post ->]]. apply Ascii.eqb_eq in Hc. subst. now exists post.
      * intros [post H]. injection H as -> ->. split; [apply Ascii.eqb_refl | now exists post].
Qed.

Lemma includes_spec (s t : string) :
  includes s t = true <-> exists pre post, s = pre ++ t ++ post.
Proof.
  induction s as [|c s IH]; cbn [includes].
  - rewrite orb_false_r, startsWith_spec. split.
    + intros [post H]. now exists EmptyString, post.
    + intros [pre [post H]]. destruct pre; [now exists post | discriminate].
  - rewrite orb_true_iff, startsWith_spec, IH. split.
    + intros [[post H] | [pre [post H]]].
      * now exists EmptyString, post.
      * exists (String c pre), post. simpl. now rewrite H.
    + intros [pre [post H]]. destruct pre as [|x pre]; simpl in H.
      * left. now exists post.
      * right. injection H as _ H. now exists pre, post.
Qed.

Lemma includes_empty (s : string) : includes s EmptyString = true.
Proof. destruct s; reflexivity. Qed.

Lemma toLowerCase_app (a b : string) :
  toLowerCase (a ++ b) = toLowerCase a ++ toLowerCase b.
Proof. induction a as [|c a IH]; simpl; [reflexivity | now rewrite IH]. Qed.

Lemma toLowerCase_split (s a b : string) :
  toLowerCase s = a ++ b ->
  exists s1 s2, s = s1 ++ s2 /\ toLowerCase s1 = a /\ toLowerCase s2 = b.
Proof.
  revert s. induction a as [|x a IH]; intros s H; simpl in H.
  - now exists EmptyString, s.
  - destruct s as [|c s]; [discriminate |]. simpl in H. injection H as Hc H.
    destruct (IH _ H) as (s1 & s2 & -> & <- & <-).
    exists (String c s1), s2. simpl. now rewrite Hc.
Qed.

Lemma isUpper_toLowerChar (c : ascii) : isUpper (toLowerChar c) = false.
Proof. destruct c as [[] [] [] [] [] [] [] []]; reflexivity. Qed.

Lemma toLowerChar_idem (c : ascii) : toLowerChar (toLowerChar c) = toLowerChar c.
Proof. unfold toLowerChar at 1. now rewrite isUpper_toLowerChar. Qed.

Lemma toLowerChar_upper_inj (c d : ascii) :
  isUpper c = true -> isUpper d = true -> toLowerChar c = toLowerChar d -> c = d.
Proof.
  intros Hc Hd H. unfold toLowerChar in H. rewrite Hc, Hd in H.
  assert (upper_le : forall x, isUpper x = true -> nat_of_ascii x <= 222).
  { intros x Hx. unfold isUpper in Hx. cbv zeta in Hx.
    apply orb_true_iff in Hx as [Hx | Hx].
    - apply andb_true_iff in Hx as [_ Hx]. apply Nat.leb_le in Hx. lia.
    - apply andb_true_iff in Hx as [Hx _]. apply andb_true_iff in Hx as [_ Hx].
      apply Nat.leb_le in Hx. lia. }
  apply upper_le in Hc, Hd.
  apply (f_equal nat_of_ascii) in H.
  rewrite !nat_ascii_embedding in H by lia.
  rewrite <- (ascii_nat_embedding c), <- (ascii_nat_embedding d).
  f_equal. lia.
Qed.

Lemma isUpper_capital (c : ascii) : isUpper c = true <-> capital (nat_of_ascii c).
Proof.
  unfold isUpper, capital. cbv zeta.
  rewrite orb_true_iff, !andb_true_iff, !Nat.leb_le, negb_true_iff, Nat.eqb_neq.
  tauto.
Qed.

Lemma nat_of_ascii_inj (c d : ascii) : nat_of_ascii c = nat_of_ascii d -> c = d.
Proof.
  intros H. rewrite <- (ascii_nat_embedding c), <- (ascii_nat_embedding d).
  now rewrite H.
Qed.

Lemma nat_of_toLowerChar (c : ascii) :
  nat_of_ascii (toLowerChar c)
  = if isUpper c then nat_of_ascii c + 32 else nat_of_ascii c.
Proof.
  unfold toLowerChar. destruct (isUpper c) eqn:E; [| reflexivity].
  apply isUpper_capital in E. apply nat_ascii_embedding.
  unfold capital in E. lia.
Qed.

(** The code's lower-casing identifies exactly the characters that are
    the same letter up to case. *)
Lemma same_letter_iff (c d : ascii) :
  same_letter c d <-> toLowerChar c = toLowerChar d.
Proof.
  assert (Hdec : forall x, isUpper x = false -> ~ capital (nat_of_ascii x)).
  { intros x Hx Hcap. apply isUpper_capital in Hcap. congruence. }
  unfold same_letter. split.
  - intros [-> | [[Hcap E] | [Hcap E]]]; [reflexivity | |];
      apply nat_of_ascii_inj; rewrite !nat_of_toLowerChar;
      pose proof (proj2 (isUpper_capital _) Hcap) as Hup; rewrite Hup.
    + destruct (isUpper d) eqn:Hd; [| lia].
      apply isUpper_capital in Hd. unfold capital in Hcap, Hd. lia.
    + destruct (isUpper c) eqn:Hc; [| lia].
      apply isUpper_capital in Hc. unfold capital in Hcap, Hc. lia.
  - intros H. apply (f_equal nat_of_ascii) in H. rewrite !nat_of_toLowerChar in H.
    destruct (isUpper c) eqn:Hc, (isUpper d) eqn:Hd.
    + left. apply nat_of_ascii_inj. lia.
    + right; left. split; [now apply isUpper_capital | lia].
    + right; right. split; [now apply isUpper_capital | lia].
    + left. now apply nat_of_ascii_inj.
Qed.

Lemma eq_ignore_case_iff (a b : string) :
  eq_ignore_case a b <-> toLowerCase a = toLowerCase b.
Proof.
  revert b. induction a as [|c a IH]; intros [|d b]; simpl;
    try (split; [tauto | discriminate]); [tauto |].
  rewrite same_letter_iff, IH. split.
  - intros [-> ->]. reflexivity.
  - intros H. injection H as -> ->. tauto.
Qed.

(** The test the filter performs decides containment up to case. *)
Lemma includes_toLowerCase (s q : string) :
  includes (toLowerCase s) (toLowerCase q) = true <-> contains_ignore_case s q.
Proof.
  rewrite includes_spec. unfold contains_ignore_case. split.
  - intros (pre & post & H).
    apply toLowerCase_split in H as (s1 & s23 & -> & _ & H).
    apply toLowerCase_split in H as (s2 & s3 & -> & H & _).
    exists s1, s2, s3. split; [reflexivity | now apply eq_ignore_case_iff].
  - intros (pre & mid & post & -> & H). apply eq_ignore_case_iff in H.
    exists (toLowerCase pre), (toLowerCase post).
    now rewrite !toLowerCase_app, H.
Qed.

(** ** [Array.prototype.filter] *)

Lemma Array_filter_acc {A} (p : A -> bool) (l acc : list A) :
  fold_left (fun kept x => if p x then (kept ++ [x])%list else kept) l acc
  = (acc ++ List.filter p l)%list.
Proof.
  revert acc. induction l as [|x l IH]; intros acc; simpl.
  - now rewrite app_nil_r.
  - rewrite IH. destruct (p x); [| reflexivity].
    now rewrite <- app_assoc.
Qed.

Lemma Array_filter_eq {A} (p : A -> bool) (l : list A) :
  Array_filter p l = List.filter p l.
Proof. unfold Array_filter. now rewrite Array_filter_acc. Qed.

Lemma List_filter_sublist {A} (p : A -> bool) (l : list A) :
  sublist (List.filter p l) l.
Proof.
  induction l as [|x l IH]; simpl; [constructor |].
  destruct (p x); now constructor.
Qed.

Lemma List_filter_all {A} (p : A -> bool) (l : list A) :
  (forall x, p x = true) -> List.filter p l = l.
Proof.
  intros H. induction l as [|x l IH]; simpl; [reflexivity |].
  now rewrite H, IH.
Qed.

Lemma matchesIncident_spec (sq cq : string) (r : IncidentRecord) :
  matchesIncident sq cq r = true <->
  contains_ignore_case (state r) sq /\ contains_ignore_case (city_county r) cq.
Proof.
  unfold matchesIncident. now rewrite andb_true_iff, !includes_toLowerCase.
Qed.

Lemma useMemo_sound (memo : Memo) (stateFilter cityFilter : string) :
  memo_sound memo ->
  fst (useMemo_filteredIncidents memo stateFilter cityFilter)
    = filteredIncidents stateFilter cityFilter
  /\ memo_sound (snd (useMemo_filteredIncidents memo stateFilter cityFilter)).
Proof.
  unfold useMemo_filteredIncidents. destruct memo as [[[s c] value] |]; simpl.
  - intros ->. destruct (String.eqb_spec s stateFilter) as [-> | _]; simpl.
    + destruct (String.eqb_spec c cityFilter) as [-> | _]; simpl; split; reflexivity.
    + split; reflexivity.
  - intros _. split; reflexivity.
Qed.

Lemma renders_sound (filters : list (string * string)) : memo_sound (renders filters).
Proof.
  unfold renders. induction filters as [|f filters IH] using rev_ind.
  - exact I.
  - rewrite fold_left_app. simpl. now apply useMemo_sound.
Qed.

(** C1: the incident filter returns exactly the records, in their original
    order, whose state contains [stateQuery] and whose city_county contains
    [cityQuery] up to case: it is the ordered selection of the records the
    test accepts, a subsequence of the input, its members are the members of
    the input with both containments, empty queries keep every record, and
    the empty list gives the empty list. The value depends on the list and
    the two queries only: whatever was rendered before, the memoised
    [filteredIncidents] is the filter of [MOCK_DATA] at the current
    filters. Containment up to case is the specification's own notion,
    stated on letters and not through the code's lower-casing; on the
    static data, queries in another case than the data find their rows. *)
Theorem filterIncidents_correct (L : list IncidentRecord) (stateQuery cityQuery : string) :
  filterIncidents L stateQuery cityQuery
    = List.filter (matchesIncident stateQuery cityQuery) L
  /\ sublist (filterIncidents L stateQuery cityQuery) L
  /\ (forall r, In r (filterIncidents L stateQuery cityQuery) <->
                In r L /\ contains_ignore_case (state r) stateQuery
                       /\ contains_ignore_case (city_county r) cityQuery)
  /\ filterIncidents L EmptyString EmptyString = L
  /\ filterIncidents [] stateQuery cityQuery = []
  /\ (forall earlier,
        fst (useMemo_filteredIncidents (renders earlier) stateQuery cityQuery)
        = filterIncidents MOCK_DATA stateQuery cityQuery)
  /\ map city_county (filterIncidents MOCK_DATA "tEXAS" EmptyString) = ["Dallas"; "Houston"]
  /\ map city_county (filterIncidents MOCK_DATA "CALI" "oak") = ["Oakland"].
Proof.
  split; [| split; [| split; [| split; [| split; [| split; [| split; reflexivity]]]]]].
  - apply Array_filter_eq.
  - unfold filterIncidents. rewrite Array_filter_eq. apply List_filter_sublist.
  - intros r. unfold filterIncidents.
    now rewrite Array_filter_eq, filter_In, matchesIncident_spec.
  - unfold filterIncidents. rewrite Array_filter_eq.
    apply List_filter_all. intros r. unfold matchesIncident. simpl.
    now rewrite !includes_empty.
  - reflexivity.
  - intros earlier. apply useMemo_sound, renders_sound.
Qed.

(** Queries are matched whatever their case and the case of the data. *)
Example filteredIncidents_ignores_case :
  filteredIncidents "texas" EmptyString = filteredIncidents "Texas" EmptyString
  /\ filteredIncidents "TEXAS" "DALLAS" = filteredIncidents "Texas" "Dallas"
  /\ List.length (filteredIncidents "TEXAS" "DALLAS") = 1
  /\ contains_ignore_case "Texas" "tEXAS"
  /\ ~ contains_ignore_case "Texas" "taxes".
Proof.
  repeat split; try reflexivity.
  - apply includes_toLowerCase. reflexivity.
  - intros H. apply includes_toLowerCase in H. discriminate H.
Qed.

(** The scenario of the specification: ten records, two of them in Texas. *)
Example filteredIncidents_Texas :
  filteredIncidents "Texas" EmptyString
  = [ {| date := "Jan 8, 2025"; state := "Texas"; city_county := "Dallas";
         address := "Ross Ave"; killed := 0; injured := 4;
         source_link := "/incident/123459" |};
      {| date := "Jan 7, 2025"; state := "Texas"; city_county := "Houston";
         address := "Main Street"; killed := 2; injured := 0;
         source_link := "/incident/123458" |} ]%Z.
Proof. reflexivity. Qed.

(** ** CSV export *)

Lemma concat_cons (sep x : string) (xs : list string) :
  String.concat sep (x :: xs)
  = x ++ String.concat EmptyString (map (fun y => sep ++ y) xs).
Proof.
  revert x. induction xs as [|y ys IH]; intros x.
  - simpl. now rewrite append_empty_r.
  - change (String.concat sep (x :: y :: ys)) with (x ++ sep ++ String.concat sep (y :: ys)).
    rewrite IH. cbn [map]. destruct ys as [|z zs]; simpl.
    + now rewrite !append_empty_r.
    + now rewrite !append_assoc.
Qed.

Lemma Array_join_acc (sep : string) (l : list Value) (R : string) (k : nat) :
  fst (fold_left
         (fun (acc : string * nat) (x : Value) =>
            let (R, k) := acc in
            ((match k with O => R | S _ => R ++ sep end) ++ ToString x, S k))
         l (R, S k))
  = R ++ String.concat EmptyString (map (fun y => sep ++ y) (map ToString l)).
Proof.
  revert R k. induction l as [|x l IH]; intros R k.
  - simpl. now rewrite append_empty_r.
  - cbn [fold_left map]. rewrite IH.
    destruct l as [|y l]; simpl.
    + now rewrite append_empty_r, append_assoc.
    + now rewrite !append_assoc.
Qed.

(** [join] puts the separator between consecutive elements. *)
Lemma Array_join_concat (sep : string) (l : list Value) :
  Array_join sep l = String.concat sep (map ToString l).
Proof.
  unfold Array_join. destruct l as [|x l]; [reflexivity |].
  cbn [fold_left map]. now rewrite Array_join_acc, concat_cons.
Qed.

Lemma fold_left_append {A} (g : A -> string) (l : list A) (acc : string) :
  fold_left (fun acc e => acc ++ g e) l acc
  = acc ++ fold_right (fun e rest => g e ++ rest) EmptyString l.
Proof.
  revert acc. induction l as [|e l IH]; intros acc; simpl.
  - now rewrite append_empty_r.
  - now rewrite IH, append_assoc.
Qed.

Lemma fold_left_pointwise {A B} (f g : A -> B -> A) (l : list B) (a : A) :
  (forall x y, f x y = g x y) -> fold_left f l a = fold_left g l a.
Proof.
  intros H. revert a. induction l as [|y l IH]; intros a; simpl; [reflexivity |].
  now rewrite H, IH.
Qed.

Lemma summaryCSVContent_template (t : YearlyMetricTable) :
  summaryCSVContent t = summary_template t.
Proof.
  unfold summaryCSVContent, summary_template.
  rewrite (fold_left_pointwise _
             (fun acc e => acc ++ (summary_line e ++ newline))).
  2:{ intros acc [cat vals]. unfold summary_line. simpl.
      now rewrite Array_join_concat, !append_assoc. }
  rewrite (fold_left_append (fun e => summary_line e ++ newline)).
  rewrite Array_join_concat, map_map. cbn [unlines ToString]. unfold commas.
  rewrite !append_assoc. do 3 f_equal.
  induction (categories t) as [|e l IH]; [reflexivity |].
  cbn [fold_right map unlines]. now rewrite IH, append_assoc.
Qed.

Lemma incidentRow_line (r : IncidentRecord) :
  Array_join "," (incidentRow r) = incident_line r.
Proof.
  rewrite Array_join_concat. unfold incident_line. simpl.
  now rewrite !append_assoc.
Qed.

Lemma incidentsCSVContent_lines (l : list IncidentRecord) :
  incidentsCSVContent l
  = incident_header ++ newline ++ String.concat newline (map incident_line l).
Proof.
  unfold incidentsCSVContent. rewrite (Array_join_concat newline), !map_map.
  cbn [ToString]. rewrite (map_ext _ incident_line) by (intros r; apply incidentRow_line).
  reflexivity.
Qed.

Lemma concat_newline_unlines (x : string) (xs : list string) :
  String.concat newline (x :: xs) ++ newline = unlines (x :: xs).
Proof.
  revert x. induction xs as [|y ys IH]; intros x.
  - reflexivity.
  - change (String.concat newline (x :: y :: ys))
      with (x ++ newline ++ String.concat newline (y :: ys)).
    rewrite !append_assoc, IH. reflexivity.
Qed.

Lemma saveBlob_downloads (csvContent name : string) (b : Browser) :
  downloads (saveBlob csvContent name b)
  = (downloads b ++ [(name, {| blobParts := csvContent; blobType := "text/csv" |})])%list.
Proof.
  unfold saveBlob, createObjectURL, clickAnchor, lookupObjectURL. simpl.
  now rewrite Nat.eqb_refl.
Qed.

(** C2, as the code has it: the summary export is the template of the
    specification, byte for byte: the header [Category] and the ten years,
    then one line ["<cat>",<v1>,...,<v10>] per category, every line ended by
    a newline, the numbers in plain decimal and [Pending] as it stands. The
    incident export is the header followed by one line
    [<date>,"<state>","<city>","<address>",<killed>,<injured>] per record,
    with a newline between consecutive lines and none after the last one:
    it is the template of the specification without its final newline. Both
    texts are what the exporters hand to the browser. *)
Theorem csv_exports_follow_templates :
  (forall t, summaryCSVContent t = summary_template t)
  /\ summaryCSVContent GVA_10_YEAR_REVIEW = summary_csv_expected
  /\ (forall l, incidentsCSVContent l
                = incident_header ++ newline ++ String.concat newline (map incident_line l))
  /\ (forall r l, incidentsCSVContent (r :: l) ++ newline = incidents_template (r :: l))
  /\ (forall b, downloads (downloadSummaryCSV b)
                = (downloads b
                     ++ [("gva_10yr_summary.csv",
                          {| blobParts := summaryCSVContent GVA_10_YEAR_REVIEW;
                             blobType := "text/csv" |})])%list)
  /\ (forall r l now b,
        downloads (downloadFilteredIncidentsCSV (r :: l) now b)
        = (downloads b
             ++ [(incidentsFileName now,
                  {| blobParts := incidentsCSVContent (r :: l);
                     blobType := "text/csv" |})])%list).
Proof.
  split; [apply summaryCSVContent_template |].
  split; [vm_compute; reflexivity |].
  split; [apply incidentsCSVContent_lines |].
  split.
  - intros r l. rewrite incidentsCSVContent_lines. unfold incidents_template.
    cbn [unlines]. rewrite !append_assoc. do 2 f_equal.
    apply (concat_newline_unlines (incident_line r) (map incident_line l)).
  - split; intros; apply saveBlob_downloads.
Qed.

(** C2, as stated: the incident export of the Ohio record is not the
    incident template of the specification, which ends every record line
    with a newline. *)
Lemma incidents_csv_differs_from_template :
  incidentsCSVContent (filteredIncidents "Ohio" EmptyString)
  <> incidents_template (filteredIncidents "Ohio" EmptyString).
Proof.
  intros H. apply (f_equal String.length) in H. vm_compute in H. discriminate H.
Qed.

(** C3: the row exported for the first record of [MOCK_DATA]. Its date
    holds a comma and goes out as it is, not wrapped in double quotes, so
    the row splits into seven cells under a header of six; the state, city
    and address are wrapped. *)
Theorem incident_date_exported_unquoted :
  let r := {| date := "Jan 8, 2025"; state := "Illinois"; city_county := "Chicago";
              address := "1200 Block of S Western Ave"; killed := 1; injured := 3;
              source_link := "/incident/123456" |} in
  hd_error MOCK_DATA = Some r
  /\ includes (date r) "," = true
  /\ incidentsCSVContent [r]
     = incident_header ++ newline
         ++ "Jan 8, 2025," ++ dquote ++ "Illinois" ++ dquote
         ++ "," ++ dquote ++ "Chicago" ++ dquote
         ++ "," ++ dquote ++ "1200 Block of S Western Ave" ++ dquote ++ ",1,3"
  /\ List.length (String_split "," incident_header) = 6
  /\ List.length (String_split "," (Array_join "," (incidentRow r))) = 7.
Proof. vm_compute. repeat split; reflexivity. Qed.

(** *** Reading the summary back *)

Lemma String_split_avoids (c : ascii) (a : string) :
  avoids c a = true -> String_split c a = [a].
Proof.
  induction a as [|d a IH]; [reflexivity |].
  cbn [avoids String_split]. intros H. apply andb_true_iff in H as [Hd Ha].
  apply negb_true_iff in Hd. rewrite Hd, (IH Ha). reflexivity.
Qed.

Lemma String_split_app (c : ascii) (a b : string) :
  avoids c a = true ->
  String_split c (a ++ String c b) = a :: String_split c b.
Proof.
  induction a as [|d a IH]; intros H.
  - cbn [append String_split]. now rewrite Ascii.eqb_refl.
  - cbn [avoids] in H. apply andb_true_iff in H as [Hd Ha].
    apply negb_true_iff in Hd.
    cbn [append String_split]. rewrite Hd, (IH Ha). reflexivity.
Qed.

Lemma avoids_app (c : ascii) (a b : string) :
  avoids c (a ++ b) = avoids c a && avoids c b.
Proof.
  induction a as [|d a IH]; [reflexivity |].
  cbn [append avoids]. now rewrite IH, andb_assoc.
Qed.

Lemma avoids_concat (c : ascii) (sep : string) (l : list string) :
  avoids c sep = true -> forallb (avoids c) l = true ->
  avoids c (String.concat sep l) = true.
Proof.
  intros Hsep. induction l as [|x l IH]; [reflexivity |].
  cbn [forallb]. intros H. apply andb_true_iff in H as [Hx Hl].
  destruct l as [|y l]; [exact Hx |].
  change (String.concat sep (x :: y :: l)) with (x ++ sep ++ String.concat sep (y :: l)).
  now rewrite !avoids_app, Hx, Hsep, (IH Hl).
Qed.

(** Splitting what was joined with a separator the pieces are free of. *)
Lemma String_split_concat (c : ascii) (l : list string) :
  l <> [] -> forallb (avoids c) l = true ->
  String_split c (String.concat (String c EmptyString) l) = l.
Proof.
  induction l as [|x l IH]; [congruence |]. intros _.
  cbn [forallb]. intros H. apply andb_true_iff in H as [Hx Hl].
  destruct l as [|y l]; [now apply String_split_avoids |].
  change (String.concat (String c EmptyString) (x :: y :: l))
    with (x ++ String c (String.concat (String c EmptyString) (y :: l))).
  rewrite (String_split_app c x _ Hx). f_equal. now apply IH.
Qed.

Lemma String_split_unlines (ls : list string) :
  forallb (avoids (ascii_of_nat 10)) ls = true ->
  String_split (ascii_of_nat 10) (unlines ls) = (ls ++ [EmptyString])%list.
Proof.
  induction ls as [|l ls IH]; [reflexivity |].
  cbn [forallb]. intros H. apply andb_true_iff in H as [Hl Hls].
  change (unlines (l :: ls)) with (l ++ String (ascii_of_nat 10) (unlines ls)).
  now rewrite (String_split_app _ l _ Hl), (IH Hls).
Qed.

Lemma lines_of_unlines (ls : list string) :
  forallb (avoids (ascii_of_nat 10)) ls = true -> lines_of (unlines ls) = ls.
Proof.
  intros H. unfold lines_of. rewrite (String_split_unlines ls H), rev_app_distr.
  cbn [rev app]. apply rev_involutive.
Qed.

(** A numeral holds digits and at most a sign: nothing below the sign. *)
Lemma Number_toString_avoids (c : ascii) (z : Z) :
  nat_of_ascii c < 45 -> avoids c (Number_toString z) = true.
Proof.
  intros Hc.
  assert (Hne : forall d, 45 <= nat_of_ascii d -> negb (Ascii.eqb d c) = true).
  { intros d Hd. apply negb_true_iff, Ascii.eqb_neq. intros ->. lia. }
  assert (Hu : forall u, avoids c (NilEmpty.string_of_uint u) = true).
  { induction u; cbn [NilEmpty.string_of_uint avoids]; [reflexivity | ..];
      rewrite IHu, Hne; [reflexivity | vm_compute; lia ..]. }
  assert (Hz : forall u, avoids c (NilZero.string_of_uint u) = true).
  { intros u. destruct u; try apply Hu. cbn [NilZero.string_of_uint avoids].
    rewrite Hne; [reflexivity | vm_compute; lia]. }
  unfold Number_toString. destruct (Z.to_int z) as [u | u]; cbn [NilZero.string_of_int].
  - apply Hz.
  - cbn [avoids]. rewrite Hz, Hne; [reflexivity | vm_compute; lia].
Qed.

Lemma parse_number_toString (z : Z) : parse_number (Number_toString z) = Some z.
Proof.
  unfold parse_number, Number_toString. rewrite NilZero.isi.
  - simpl. now rewrite DecimalZ.of_to.
  - destruct z; simpl; try discriminate;
      intros [= H]; now apply DecimalPos.Unsigned.to_uint_nonnil in H.
  - destruct z; simpl; try discriminate;
      intros [= H]; now apply DecimalPos.Unsigned.to_uint_nonnil in H.
Qed.

Lemma parse_cell_ToString (v : Value) :
  plain_cell v = true -> parse_cell (ToString v) = v.
Proof.
  destruct v as [z | s]; cbn [plain_cell ToString]; unfold parse_cell.
  - intros _. now rewrite parse_number_toString.
  - intros H. apply andb_true_iff in H as [_ H]. now destruct (parse_number s).
Qed.

Lemma ToString_avoids (c : ascii) (v : Value) :
  nat_of_ascii c < 45 ->
  (forall s, v = Str s -> avoids c s = true) ->
  avoids c (ToString v) = true.
Proof.
  intros Hc Hs. destruct v as [z | s]; cbn [ToString].
  - now apply Number_toString_avoids.
  - now apply Hs.
Qed.

Lemma plain_cells_avoid (vals : list Value) :
  forallb plain_cell vals = true ->
  forallb (avoids ",") (map ToString vals) = true
  /\ forallb (avoids (ascii_of_nat 34)) (map ToString vals) = true
  /\ forallb (avoids (ascii_of_nat 10)) (map ToString vals) = true.
Proof.
  induction vals as [|v vals IH]; [now repeat split |].
  cbn [forallb map]. intros H. apply andb_true_iff in H as [Hv Hvals].
  destruct (IH Hvals) as (H1 & H2 & H3). rewrite H1, H2, H3, !andb_true_r.
  assert (Hs : forall s, v = Str s ->
            avoids "," s = true /\ avoids (ascii_of_nat 34) s = true
            /\ avoids (ascii_of_nat 10) s = true).
  { intros s ->. cbn [plain_cell] in Hv.
    apply andb_true_iff in Hv as [Hv _]. apply andb_true_iff in Hv as [Hv Hc].
    apply andb_true_iff in Hv as [Ha Hb]. auto. }
  repeat split;
    (apply ToString_avoids; [vm_compute; lia | intros s E; now apply Hs]).
Qed.

Lemma mapM_parse_number (ys : list Z) :
  mapM parse_number (map Number_toString ys) = Some ys.
Proof.
  induction ys as [|y ys IH]; [reflexivity |].
  cbn [map mapM]. rewrite parse_number_toString, IH. reflexivity.
Qed.

(** A line of the export reads back as its category and its cells. *)
Lemma parse_row_summary_line (ys : list Z) (cat : string) (vals : list Value) :
  ys <> [] ->
  avoids (ascii_of_nat 34) cat = true ->
  List.length vals = List.length ys ->
  forallb plain_cell vals = true ->
  parse_row ys (summary_line (cat, vals)) = Some (cat, combine ys vals).
Proof.
  intros Hys Hcat Hlen Hvals.
  destruct (plain_cells_avoid vals Hvals) as (Hcomma & Hquote & _).
  assert (Hne : map ToString vals <> []).
  { destruct vals; [| discriminate]. destruct ys; [congruence | discriminate]. }
  unfold parse_row, unquote_category, summary_line, commas. cbn [fst snd].
  change (dquote ++ cat ++ dquote ++ "," ++ String.concat "," (map ToString vals))
    with (String (ascii_of_nat 34)
            (cat ++ String (ascii_of_nat 34)
                      (String "," (String.concat "," (map ToString vals))))).
  cbn [String_split]. rewrite Ascii.eqb_refl.
  rewrite (String_split_app _ cat _ Hcat).
  rewrite String_split_avoids.
  2:{ cbn [avoids]. rewrite avoids_concat; [reflexivity | reflexivity | exact Hquote]. }
  rewrite Ascii.eqb_refl.
  rewrite (String_split_concat "," _ Hne Hcomma), map_map.
  rewrite length_map, Hlen, Nat.eqb_refl. do 3 f_equal.
  clear Hne Hcomma Hquote Hlen. induction vals as [|v vals IH]; [reflexivity |].
  cbn [forallb] in Hvals. apply andb_true_iff in Hvals as [Hv Hvals].
  cbn [map]. now rewrite (parse_cell_ToString v Hv), (IH Hvals).
Qed.

(** Reading the export of any plain table gives its mapping back. *)
Lemma parseSummaryCSV_summaryCSVContent (t : YearlyMetricTable) :
  plain_table t = true ->
  parseSummaryCSV (summaryCSVContent t) = Some (table_mapping t).
Proof.
  unfold plain_table. intros H. apply andb_true_iff in H as [Hys Hcats].
  apply negb_true_iff, Nat.eqb_neq in Hys.
  assert (Hys' : years t <> []) by (destruct (years t); [simpl in Hys; lia | discriminate]).
  assert (Hnums : forallb (avoids ",") (map Number_toString (years t)) = true
                  /\ forallb (avoids (ascii_of_nat 10)) (map Number_toString (years t)) = true).
  { clear. induction (years t) as [|y ys [IH1 IH2]]; [now split |].
    cbn [map forallb]. rewrite IH1, IH2, !Number_toString_avoids by (vm_compute; lia).
    now split. }
  destruct Hnums as [Hnum_comma Hnum_nl].
  rewrite summaryCSVContent_template. unfold summary_template, parseSummaryCSV.
  rewrite lines_of_unlines.
  2:{ cbn [forallb]. apply andb_true_iff. split.
      - unfold commas. change ("Category," ++ ?x) with ("Category" ++ String "," x).
        rewrite avoids_app. cbn [avoids]. rewrite avoids_concat; auto.
      - clear - Hcats. induction (categories t) as [|[cat vals] l IH]; [reflexivity |].
        cbn [forallb map] in *. apply andb_true_iff in Hcats as [He Hl].
        rewrite (IH Hl), andb_true_r. cbn [fst snd] in He.
        apply andb_true_iff in He as [He Hvals]. apply andb_true_iff in He as [He _].
        apply andb_true_iff in He as [_ Hnl].
        destruct (plain_cells_avoid vals Hvals) as (_ & _ & Hcells).
        unfold summary_line, commas. cbn [fst snd].
        rewrite !avoids_app, Hnl. cbn. rewrite avoids_concat; auto. }
  unfold commas.
  change ("Category," ++ String.concat "," (map Number_toString (years t)))
    with ("Category" ++ String "," (String.concat "," (map Number_toString (years t)))).
  rewrite String_split_app by reflexivity.
  rewrite String_split_concat; [| destruct (years t); [congruence | discriminate] | exact Hnum_comma].
  cbn [String.eqb Ascii.eqb Bool.eqb]. rewrite mapM_parse_number. cbn [mbind option_bind].
  unfold table_mapping. clear Hnum_comma Hnum_nl Hys.
  induction (categories t) as [|[cat vals] l IH]; [reflexivity |].
  cbn [forallb map mapM] in *. apply andb_true_iff in Hcats as [He Hl].
  cbn [fst snd] in He.
  apply andb_true_iff in He as [He Hvals]. apply andb_true_iff in He as [He Hlen].
  apply andb_true_iff in He as [Hq _]. apply Nat.eqb_eq in Hlen.
  rewrite (parse_row_summary_line (years t) cat vals Hys' Hq Hlen Hvals), (IH Hl).
  reflexivity.
Qed.

(** C4: reading the exported summary back (lines, unquoted category, cells
    paired with the year of their column) gives the mapping of the static
    table, the last cell of the CDC row being the text [Pending]. *)
Theorem summary_csv_round_trip :
  parseSummaryCSV (summaryCSVContent GVA_10_YEAR_REVIEW)
    = Some (table_mapping GVA_10_YEAR_REVIEW)
  /\ (exists row, In ("Suicide by Firearm (CDC)", row) (table_mapping GVA_10_YEAR_REVIEW)
                  /\ In (2024%Z, Str "Pending") row).
Proof.
  split; [apply parseSummaryCSV_summaryCSVContent; vm_compute; reflexivity |].
  eexists. split; [do 13 right; left; reflexivity |].
  vm_compute. do 9 right. left. reflexivity.
Qed.

(** C10: with nothing to export the incident exporter returns at once and
    leaves the browser as it was; whenever it does export, the list has a
    record, so a header-only file is never produced. *)
Theorem export_of_no_incident_does_nothing :
  (forall now b, downloadFilteredIncidentsCSV [] now b = b)
  /\ (forall l now b,
        downloadFilteredIncidentsCSV l now b = b
        \/ exists r l', l = r :: l'
             /\ downloads (downloadFilteredIncidentsCSV l now b)
                = (downloads b
                     ++ [(incidentsFileName now,
                          {| blobParts := incidentsCSVContent (r :: l');
                             blobType := "text/csv" |})])%list)
  /\ filteredIncidents "Alaska" EmptyString = [].
Proof.
  split; [reflexivity |]. split; [| reflexivity].
  intros [|r l'] now b; [left; reflexivity | right].
  exists r, l'. split; [reflexivity |]. apply saveBlob_downloads.
Qed.

(** ** Chat panel *)

Lemma trimStart_all_white (s : string) : all_white s = true -> trimStart s = EmptyString.
Proof.
  induction s as [|c s IH]; simpl; [reflexivity |].
  intros H. apply andb_true_iff in H as [-> H]. now apply IH.
Qed.

Lemma trim_all_white (s : string) : all_white s = true -> trim s = EmptyString.
Proof. intros H. unfold trim. now rewrite trimStart_all_white. Qed.

Lemma chatStep_invariant (st : ChatState) (ev : ChatEvent) :
  chat_invariant st -> chat_invariant (chatStep st ev).
Proof.
  intros I. destruct ev as [text | | response |]; simpl.
  - exact I.
  - unfold handleSendMessage.
    destruct (negb (truthy_string (trim (userInput st)))); simpl; [exact I |].
    destruct (isTyping st) eqn:Ht; simpl; [exact I |].
    destruct I as [I | [I _]]; [| congruence].
    right. split; [reflexivity |]. rewrite I. now eexists.
  - unfold handleSendMessage_resume. destruct (inFlight st) as [|m rest] eqn:E.
    + left. exact E.
    + destruct I as [I | [_ [m' I]]]; [congruence |].
      rewrite E in I. injection I as _ ->. now left.
  - left. simpl. destruct I as [-> | [_ [m ->]]]; reflexivity.
Qed.

Lemma chatRun_invariant (evs : list ChatEvent) : chat_invariant (chatRun evs).
Proof.
  unfold chatRun. induction evs as [|ev evs IH] using rev_ind.
  - now left.
  - rewrite fold_left_app. simpl. now apply chatStep_invariant.
Qed.

(** C9: after any sequence of events of the chat panel at most one call of
    [sendChatMessage] is pending; a submit while [isTyping] is set, or with
    an input that is empty or all white space, changes nothing and issues
    no call; any other submit issues exactly one. *)
Theorem one_chat_request_in_flight :
  (forall evs, List.length (inFlight (chatRun evs)) <= 1)
  /\ (forall st, isTyping st = true -> handleSendMessage st = st)
  /\ (forall st, all_white (userInput st) = true -> handleSendMessage st = st)
  /\ (forall st, isTyping st = false -> trim (userInput st) <> EmptyString ->
        inFlight (handleSendMessage st) = (inFlight st ++ [userInput st])%list
        /\ isTyping (handleSendMessage st) = true).
Proof.
  split; [| split; [| split]].
  - intros evs. destruct (chatRun_invariant evs) as [-> | [_ [m ->]]]; simpl; lia.
  - intros st H. unfold handleSendMessage. rewrite H. now rewrite orb_true_r.
  - intros st H. unfold handleSendMessage. now rewrite (trim_all_white _ H).
  - intros st Ht Hin. unfold handleSendMessage. rewrite Ht.
    destruct (trim (userInput st)); [congruence |]. simpl. split; reflexivity.
Qed.

Lemma one_chat_request_in_flight_witness :
  let typing := chatRun [Typed "hello"; Submitted; Typed "again"] in
  List.length (inFlight (chatStep typing Submitted)) <= 1
  /\ isTyping typing = true
  /\ handleSendMessage typing = typing.
Proof.
  destruct one_chat_request_in_flight as (Hone & Hgate & _).
  split; [apply (Hone [Typed "hello"; Submitted; Typed "again"; Submitted]) |].
  split; [reflexivity | apply Hgate; reflexivity].
Defined.

(** A run of the panel: the second and third submits are dropped, one
    while the first call is pending, the other for its blank input. *)
Example chat_panel_run :
  let st := chatRun [Typed "hello"; Submitted; Typed "again"; Submitted;
                     Resolved "hi"; Typed "   "; Submitted] in
  chatHistory st = [ {| role := user; content := "hello" |};
                     {| role := assistant; content := "hi" |} ]
  /\ userInput st = "   " /\ isTyping st = false /\ inFlight st = [].
Proof. repeat split; reflexivity. Qed.

(** ** The AI gateway *)

Lemma or_string_truthy (x : option string) (d : string) :
  d <> EmptyString -> or_string x d <> EmptyString.
Proof.
  intros Hd. unfold or_string. destruct x as [[|c s]|]; simpl; congruence.
Qed.

(** C5: [generateEnhancedDataReport] always resolves. When the client
    cannot be built or the request fails it resolves to the fixed fallback,
    the text [Error generating report. Please check your API key and
    connection.] with no sources, and logs the error; otherwise it resolves
    to the text of the response (or a fixed text when there is none) and
    the grounding chunks of the first candidate (or none). Its text is
    never empty. *)
Theorem generateEnhancedDataReport_never_throws (rt : Runtime) (w : World) :
  exists r w',
    generateEnhancedDataReport rt w = (Return r, w')
    /\ text r <> EmptyString
    /\ match GoogleGenAI_new rt (clock w) (or_string (API_KEY rt) EmptyString),
             models_generateContent rt (S (clock w)) (reportRequest rt) with
       | Return _, Return response =>
           r = {| text := or_string (response_text response) "No analysis available.";
                  sources := or_array (groundingChunksOf response) |}
           /\ console w' = console w
       | Throw e, _ | Return _, Throw e =>
           r = {| text := "Error generating report. Please check your API key and connection.";
                  sources := [] |}
           /\ console w' = (console w ++ [("Enhanced Report Error:", e)])%list
       end.
Proof.
  run_gateway.
  destruct (GoogleGenAI_new rt (clock w) _) as [[] | e].
  - destruct (models_generateContent rt (S (clock w)) _) as [response | e];
      do 2 eexists; (split; [reflexivity |]); simpl;
      (split; [| split; reflexivity]).
    + now apply or_string_truthy.
    + discriminate.
  - do 2 eexists. split; [reflexivity |]. simpl.
    split; [discriminate | split; reflexivity].
Qed.

(** The value a report resolves to, by the answers of the SDK. *)
Lemma generateEnhancedDataReport_result (rt : Runtime) (w : World) :
  fst (generateEnhancedDataReport rt w)
  = Return
      match GoogleGenAI_new rt (clock w) (or_string (API_KEY rt) EmptyString),
            models_generateContent rt (S (clock w)) (reportRequest rt) with
      | Return _, Return response =>
          {| text := or_string (response_text response) "No analysis available.";
             sources := or_array (groundingChunksOf response) |}
      | _, _ => reportFallback
      end.
Proof.
  run_gateway.
  destruct (GoogleGenAI_new rt (clock w) _) as [[] | e]; [| reflexivity].
  now destruct (models_generateContent rt (S (clock w)) _).
Qed.

(** Behind an endpoint whose answers do not change from one call to the
    next, a second report resolves to what the first one resolved to. *)
Lemma generateEnhancedDataReport_twice (rt : Runtime) (w : World) :
  (forall n m key, GoogleGenAI_new rt n key = GoogleGenAI_new rt m key) ->
  (forall n m request, models_generateContent rt n request = models_generateContent rt m request) ->
  fst (generateEnhancedDataReport rt (snd (generateEnhancedDataReport rt w)))
  = fst (generateEnhancedDataReport rt w).
Proof.
  intros Hnew Hgen. rewrite !generateEnhancedDataReport_result.
  set (w' := snd (generateEnhancedDataReport rt w)).
  now rewrite (Hnew (clock w') (clock w)), (Hgen (S (clock w')) (S (clock w))).
Qed.

(** [findLocalSafetyResources] always resolves, to its own fallback when
    the client cannot be built or the request fails. *)
Lemma findLocalSafetyResources_never_throws (rt : Runtime) (lat lng : option spec_float)
    (w : World) :
  exists r w',
    findLocalSafetyResources rt lat lng w = (Return r, w')
    /\ match GoogleGenAI_new rt (clock w) (or_string (API_KEY rt) EmptyString),
             models_generateContent rt (S (clock w)) (resourcesRequest rt lat lng) with
       | Return _, Return response =>
           r = {| text := or_string (response_text response) "No resources found.";
                  sources := or_array (groundingChunksOf response) |}
           /\ requests w' = (requests w ++ [resourcesRequest rt lat lng])%list
       | Throw e, _ | Return _, Throw e =>
           r = {| text := "Error finding local resources."; sources := [] |}
       end.
Proof.
  run_gateway.
  destruct (GoogleGenAI_new rt (clock w) _) as [[] | e].
  - destruct (models_generateContent rt (S (clock w)) _) as [response | e];
      do 2 eexists; (split; [reflexivity |]); simpl; [split |]; reflexivity.
  - do 2 eexists. split; reflexivity.
Qed.

(** With both coordinates truthy the request carries them and the prompt
    speaks of the current location. *)
Lemma resourcesRequest_with_coordinates (rt : Runtime) (la ln : spec_float) :
  truthy_number la = true -> truthy_number ln = true ->
  toolConfig (config (resourcesRequest rt (Some la) (Some ln)))
    = Some {| retrievalConfig :=
                Some {| latLng := {| latitude := la; longitude := ln |} |} |}
  /\ locationPrompt rt (Some la) (Some ln)
     = "Near my current location (Lat: " ++ double_toString rt la
         ++ ", Lng: " ++ double_toString rt ln ++ ")".
Proof.
  intros Ha Hn. unfold resourcesRequest, locationPrompt, latAndLng. simpl.
  now rewrite Ha, Hn.
Qed.

(** Without a coordinate the prompt is the generic one and the request
    carries no retrieval bias. *)
Lemma resourcesRequest_without_coordinates (rt : Runtime) (lat lng : option spec_float) :
  lat = None \/ lng = None ->
  toolConfig (config (resourcesRequest rt lat lng)) = Some {| retrievalConfig := None |}
  /\ locationPrompt rt lat lng = "In major US metropolitan areas".
Proof.
  unfold resourcesRequest, locationPrompt, latAndLng.
  intros [-> | ->]; [| destruct lat]; simpl; split; reflexivity.
Qed.

(** C7: a call at latitude 0 with a longitude supplied. [lat && lng] is
    falsy there, so the request that goes out carries no retrieval bias and
    its prompt is the generic one of the call without coordinates. *)
Theorem findLocalSafetyResources_at_latitude_zero (rt : Runtime) (lng : spec_float) :
  let lat := S754_zero false in
  let request := resourcesRequest rt (Some lat) (Some lng) in
  toolConfig (config request) = Some {| retrievalConfig := None |}
  /\ contents request
     = "Find 5 highly-rated community safety centers, trauma support groups, or victim advocate offices In major US metropolitan areas. Provide their details and why they are important for public safety."
  /\ request = resourcesRequest rt None None
  /\ requests (snd (findLocalSafetyResources Mock.answering (Some lat) (Some lng) initialWorld))
     = [resourcesRequest Mock.answering None None].
Proof. repeat split; reflexivity. Qed.

(** With a session in place [sendChatMessage] always resolves: to the text
    of the answer, or to the fallback when sending fails. *)
Lemma sendChatMessage_active (rt : Runtime) (message : string) (w : World)
    (c : nat) (chat : Chat) :
  currentChat w = Some c -> heap w !! c = Some chat ->
  exists r w',
    sendChatMessage rt message w = (Return r, w')
    /\ currentChat w' = Some c
    /\ heap w' = <[c := {| created_with := created_with chat;
                           sent := (sent chat ++ [message])%list |}]> (heap w)
    /\ match chat_sendMessage rt (clock w) chat message with
       | Return response =>
           r = or_string (response_text response) "No response received from the model."
       | Throw _ =>
           r = "The AI Expert is currently unavailable. Please check your configuration."
       end.
Proof.
  intros Hc Hh. run_gateway. rewrite Hc. simpl. rewrite Hc. simpl. rewrite Hh. simpl.
  destruct (chat_sendMessage rt (clock w) chat message) as [response | e];
    do 2 eexists; repeat split; reflexivity.
Qed.

(** C6: [sendChatMessage] with no session yet, behind an SDK whose client
    cannot be built. The session is created before the [try] block is
    entered, so the error of the creation reaches the caller: the call
    rejects instead of resolving to the fallback text. *)
Theorem sendChatMessage_rejects_when_creation_throws :
  currentChat initialWorld = None
  /\ fst (sendChatMessage Mock.failing "hello" initialWorld) = Throw "API key missing"
  /\ console (snd (sendChatMessage Mock.failing "hello" initialWorld)) = []
  /\ fst (generateEnhancedDataReport Mock.failing initialWorld) = Return reportFallback
  /\ fst (sendChatMessage Mock.refusing "hello" initialWorld) = Return chatFallback.
Proof. repeat split; reflexivity. Qed.

(** ** The chat session *)

Lemma classic_call (call : Call) : call = CallStartProChat \/ call <> CallStartProChat.
Proof. destruct call; (now left) || (right; discriminate). Qed.

(** What [startProChat] does, by the answers of the SDK. *)
Lemma startProChat_run (rt : Runtime) (w : World) :
  match GoogleGenAI_new rt (clock w) (or_string (API_KEY rt) EmptyString),
        chats_create rt (S (clock w)) proChatParameters with
  | Return _, Return _ =>
      fst (startProChat rt w) = Return (List.length (heap w))
      /\ currentChat (snd (startProChat rt w)) = Some (List.length (heap w))
      /\ heap (snd (startProChat rt w))
         = (heap w ++ [{| created_with := proChatParameters; sent := [] |}])%list
  | Throw e, _ | Return _, Throw e =>
      fst (startProChat rt w) = Throw e
      /\ currentChat (snd (startProChat rt w)) = currentChat w
      /\ heap (snd (startProChat rt w)) = heap w
  end.
Proof.
  run_gateway.
  destruct (GoogleGenAI_new rt (clock w) _) as [[] | e]; simpl.
  - destruct (chats_create rt (S (clock w)) _) as [[] | e]; simpl; repeat split; reflexivity.
  - repeat split; reflexivity.
Qed.

(** What [sendChatMessage] does when there is no session yet. *)
Lemma sendChatMessage_uninitialized (rt : Runtime) (message : string) (w : World) :
  currentChat w = None ->
  match GoogleGenAI_new rt (clock w) (or_string (API_KEY rt) EmptyString),
        chats_create rt (S (clock w)) proChatParameters with
  | Return _, Return _ =>
      (exists r, fst (sendChatMessage rt message w) = Return r)
      /\ currentChat (snd (sendChatMessage rt message w)) = Some (List.length (heap w))
      /\ heap (snd (sendChatMessage rt message w))
         = (heap w ++ [{| created_with := proChatParameters; sent := [message] |}])%list
  | Throw e, _ | Return _, Throw e =>
      fst (sendChatMessage rt message w) = Throw e
      /\ currentChat (snd (sendChatMessage rt message w)) = None
      /\ heap (snd (sendChatMessage rt message w)) = heap w
  end.
Proof.
  intros Hc. run_gateway. rewrite Hc.
  destruct (GoogleGenAI_new rt (clock w) _) as [[] | e]; simpl.
  - destruct (chats_create rt (S (clock w)) _) as [[] | e]; simpl.
    + rewrite lookup_app_r by lia. rewrite Nat.sub_diag. simpl.
      rewrite insert_app_r_alt by lia. rewrite Nat.sub_diag. simpl.
      destruct (chat_sendMessage rt _ _ message); simpl; repeat split; eauto.
    + repeat split; auto.
  - repeat split; auto.
Qed.

Lemma grounded_calls_frame (rt : Runtime) (w : World) (lat lng : option spec_float) :
  currentChat (snd (generateEnhancedDataReport rt w)) = currentChat w
  /\ heap (snd (generateEnhancedDataReport rt w)) = heap w
  /\ currentChat (snd (findLocalSafetyResources rt lat lng w)) = currentChat w
  /\ heap (snd (findLocalSafetyResources rt lat lng w)) = heap w.
Proof.
  run_gateway.
  destruct (GoogleGenAI_new rt (clock w) _) as [[] | e]; simpl.
  - destruct (models_generateContent rt (S (clock w)) (reportRequest rt));
      destruct (models_generateContent rt (S (clock w)) (resourcesRequest rt lat lng));
      repeat split; reflexivity.
  - repeat split; reflexivity.
Qed.

Lemma exec_session_valid (rt : Runtime) (w : World) (call : Call) :
  session_valid w -> session_valid (exec rt w call).
Proof.
  intros V. destruct call as [| lat lng | | message]; simpl.
  - destruct (grounded_calls_frame rt w None None) as (Hc & Hh & _).
    intros c. rewrite Hc, Hh. apply V.
  - destruct (grounded_calls_frame rt w lat lng) as (_ & _ & Hc & Hh).
    intros c. rewrite Hc, Hh. apply V.
  - pose proof (startProChat_run rt w) as H.
    destruct (GoogleGenAI_new rt (clock w) _) as [[] | e];
      [destruct (chats_create rt (S (clock w)) _) as [[] | e] |];
      destruct H as (_ & Hc & Hh); intros c; rewrite Hc, Hh; try apply V.
    intros [= <-]. rewrite length_app. simpl. lia.
  - destruct (currentChat w) as [c |] eqn:Hcur.
    + pose proof (V c Hcur) as Hlt.
      destruct (lookup_lt_is_Some_2 (heap w) c Hlt) as [chat Hchat].
      destruct (sendChatMessage_active rt message w c chat Hcur Hchat)
        as (r & w' & Hrun & Hc & Hh & _).
      rewrite Hrun. simpl. intros c'. rewrite Hc, Hh, length_insert.
      intros [= <-]. exact Hlt.
    + pose proof (sendChatMessage_uninitialized rt message w Hcur) as H.
      destruct (GoogleGenAI_new rt (clock w) _) as [[] | e];
        [destruct (chats_create rt (S (clock w)) _) as [[] | e] |];
        destruct H as (_ & Hc & Hh); intros c; rewrite Hc, Hh; try discriminate.
      intros [= <-]. rewrite length_app. simpl. lia.
Qed.

Lemma execAll_session_valid (rt : Runtime) (calls : list Call) :
  session_valid (execAll rt calls initialWorld).
Proof.
  unfold execAll. induction calls as [|call calls IH] using rev_ind.
  - intros c. discriminate.
  - rewrite fold_left_app. simpl. now apply exec_session_valid.
Qed.

(** C8, as the code has it: the session starts UNINITIALIZED. In the
    world [w] reached by any run of calls of the module: [startProChat],
    when the SDK creates the chat (otherwise the session stays as it
    was), makes [currentChat] refer to a chat object allocated by this
    call, created with the fixed system instruction and no history, on
    which nothing has been sent, and the chat objects that existed are
    left as they were; a first [sendChatMessage] creates the session the
    same way and sends the message on it; with a session [c] in place,
    [sendChatMessage] sends on [c] and [currentChat] stays [c], the grounded
    calls leave it alone, no call brings the session back to UNINITIALIZED,
    and only [startProChat] changes the reference. *)
Theorem chat_session_machine (rt : Runtime) (calls : list Call) :
  let w := execAll rt calls initialWorld in
  let creation := (GoogleGenAI_new rt (clock w) (or_string (API_KEY rt) EmptyString),
                   chats_create rt (S (clock w)) proChatParameters) in
  sessionState initialWorld = UNINITIALIZED
  /\ systemInstruction (chat_config proChatParameters) = Some SYSTEM_INSTRUCTION
  /\ chat_history proChatParameters = None
  /\ match creation with
     | (Return _, Return _) =>
         let w' := snd (startProChat rt w) in
         sessionState w' = ACTIVE
         /\ currentChat w' = Some (List.length (heap w))
         /\ currentChat w' <> currentChat w
         /\ heap w' = (heap w ++ [{| created_with := proChatParameters; sent := [] |}])%list
     | _ =>
         currentChat (snd (startProChat rt w)) = currentChat w
         /\ heap (snd (startProChat rt w)) = heap w
     end
  /\ (forall message,
        currentChat w = None ->
        match creation with
        | (Return _, Return _) =>
            let w' := snd (sendChatMessage rt message w) in
            sessionState w' = ACTIVE
            /\ currentChat w' = Some (List.length (heap w))
            /\ heap w'
               = (heap w ++ [{| created_with := proChatParameters; sent := [message] |}])%list
        | _ => sessionState (snd (sendChatMessage rt message w)) = UNINITIALIZED
        end)
  /\ (forall message c,
        currentChat w = Some c ->
        exists chat,
          heap w !! c = Some chat
          /\ currentChat (snd (sendChatMessage rt message w)) = Some c
          /\ heap (snd (sendChatMessage rt message w))
             = <[c := {| created_with := created_with chat;
                         sent := (sent chat ++ [message])%list |}]> (heap w))
  /\ (forall call, sessionState w = ACTIVE -> sessionState (exec rt w call) = ACTIVE)
  /\ (forall call, call <> CallStartProChat -> sessionState w = ACTIVE ->
        currentChat (exec rt w call) = currentChat w).
Proof.
  intros w creation. subst creation.
  pose proof (execAll_session_valid rt calls) as V. fold w in V.
  pose proof (startProChat_run rt w) as Hstart.
  assert (Hsend : forall message c, currentChat w = Some c ->
            exists chat, heap w !! c = Some chat
              /\ currentChat (snd (sendChatMessage rt message w)) = Some c
              /\ heap (snd (sendChatMessage rt message w))
                 = <[c := {| created_with := created_with chat;
                             sent := (sent chat ++ [message])%list |}]> (heap w)).
  { intros message c Hcur.
    destruct (lookup_lt_is_Some_2 (heap w) c (V c Hcur)) as [chat Hchat].
    destruct (sendChatMessage_active rt message w c chat Hcur Hchat)
      as (r & w' & Hrun & Hc & Hh & _).
    exists chat. rewrite Hrun. simpl. auto. }
  assert (Hkeep : forall call, call <> CallStartProChat -> sessionState w = ACTIVE ->
            currentChat (exec rt w call) = currentChat w).
  { intros call Hcall Hact.
    destruct call as [| lat lng | | message]; simpl.
    - apply (grounded_calls_frame rt w None None).
    - apply (grounded_calls_frame rt w lat lng).
    - congruence.
    - unfold sessionState in Hact.
      destruct (currentChat w) as [c |] eqn:Hcur; [| discriminate].
      destruct (Hsend message c eq_refl) as (chat & _ & Hc & _). exact Hc. }
  split; [reflexivity |]. split; [reflexivity |]. split; [reflexivity |].
  split; [| split; [| split; [exact Hsend | split; [| exact Hkeep]]]].
  - destruct (GoogleGenAI_new rt (clock w) _) as [[] | e];
      [destruct (chats_create rt (S (clock w)) _) as [[] | e] |];
      destruct Hstart as (_ & Hc & Hh); try (split; assumption).
    cbv zeta. unfold sessionState. rewrite Hc, Hh.
    repeat split; try reflexivity.
    intros Heq. symmetry in Heq. apply V in Heq. lia.
  - intros message Hcur.
    pose proof (sendChatMessage_uninitialized rt message w Hcur) as H.
    destruct (GoogleGenAI_new rt (clock w) _) as [[] | e];
      [destruct (chats_create rt (S (clock w)) _) as [[] | e] |];
      destruct H as (_ & Hc & Hh); cbv zeta; unfold sessionState; rewrite Hc;
      try reflexivity.
    repeat split; try reflexivity. exact Hh.
  - intros call Hact.
    destruct (classic_call call) as [-> | Hne].
    + simpl. unfold sessionState in *.
      destruct (GoogleGenAI_new rt (clock w) _) as [[] | e];
        [destruct (chats_create rt (S (clock w)) _) as [[] | e] |];
        destruct Hstart as (_ & Hc & _); rewrite Hc; [reflexivity | exact Hact | exact Hact].
    + unfold sessionState in *. rewrite (Hkeep call Hne Hact). exact Hact.
Qed.

(** C8, as stated: behind an SDK whose client cannot be built, the first
    initialize and the first message both leave the session
    UNINITIALIZED. *)
Lemma session_stays_uninitialized_when_creation_throws :
  sessionState initialWorld = UNINITIALIZED
  /\ sessionState (snd (startProChat Mock.failing initialWorld)) <> ACTIVE
  /\ sessionState (snd (sendChatMessage Mock.failing "hello" initialWorld)) <> ACTIVE.
Proof.
  split; [reflexivity |].
  split; intros H; vm_compute in H; discriminate H.
Qed.

Lemma chat_session_machine_witness :
  let w := execAll Mock.answering [CallStartProChat] initialWorld in
  currentChat w = Some 0
  /\ currentChat (snd (sendChatMessage Mock.answering "hello" w)) = Some 0.
Proof.
  destruct (chat_session_machine Mock.answering [CallStartProChat])
    as (_ & _ & _ & _ & _ & Hsend & _).
  split; [reflexivity |].
  destruct (Hsend "hello" 0 eq_refl) as (chat & _ & Hcur & _). exact Hcur.
Defined.

(** A run of the module behind an endpoint that answers: two messages on
    the session the first one created, then a new session that starts
    with nothing sent. *)
Example chat_session_run :
  let w1 := execAll Mock.answering
              [CallSendChatMessage "a"; CallGenerateReport; CallSendChatMessage "b"]
              initialWorld in
  let w2 := exec Mock.answering w1 CallStartProChat in
  currentChat w1 = Some 0 /\ map sent (heap w1) = [["a"; "b"]]
  /\ currentChat w2 = Some 1 /\ map sent (heap w2) = [["a"; "b"]; []].
Proof. repeat split; reflexivity. Qed.

(** ** More on the incident filter *)

Lemma includes_trans (s q' q : string) :
  includes s q' = true -> includes q' q = true -> includes s q = true.
Proof.
  rewrite !includes_spec. intros (p1 & t1 & ->) (p2 & t2 & ->).
  exists (p1 ++ p2), (t2 ++ t1). now rewrite !append_assoc.
Qed.

Lemma List_filter_sublist_impl {A} (p q : A -> bool) (l : list A) :
  (forall x, p x = true -> q x = true) ->
  sublist (List.filter p l) (List.filter q l).
Proof.
  intros H. induction l as [|x l IH]; simpl; [constructor |].
  destruct (p x) eqn:Hp.
  - rewrite (H x Hp). now apply sublist_skip.
  - destruct (q x); [now apply sublist_cons | exact IH].
Qed.

Lemma List_filter_filter {A} (p q : A -> bool) (l : list A) :
  List.filter q (List.filter p l) = List.filter (fun x => p x && q x) l.
Proof.
  induction l as [|x l IH]; simpl; [reflexivity |].
  destruct (p x); simpl; [destruct (q x) |]; now rewrite IH.
Qed.

(** X1: a query that contains the former one up to case (further characters
    typed before or after it, say) keeps a subsequence of the rows the
    former one kept: narrowing a filter never brings a row in, and never
    reorders rows. *)
Theorem filterIncidents_narrows (L : list IncidentRecord)
    (stateFilter stateFilter' cityFilter cityFilter' : string) :
  includes (toLowerCase stateFilter') (toLowerCase stateFilter) = true ->
  includes (toLowerCase cityFilter') (toLowerCase cityFilter) = true ->
  sublist (filterIncidents L stateFilter' cityFilter')
          (filterIncidents L stateFilter cityFilter).
Proof.
  intros Hs Hc. unfold filterIncidents. rewrite !Array_filter_eq.
  apply List_filter_sublist_impl. intros r. unfold matchesIncident.
  rewrite !andb_true_iff. intros [H1 H2].
  split; [exact (includes_trans _ _ _ H1 Hs) | exact (includes_trans _ _ _ H2 Hc)].
Qed.

Lemma filterIncidents_narrows_witness :
  sublist (filterIncidents MOCK_DATA "TEXAS" "Dallas") (filterIncidents MOCK_DATA "tex" "d").
Proof. apply filterIncidents_narrows; reflexivity. Defined.

(** X2: the two inputs act as two filters in a row, in either order: filtering
    by state and city at once is filtering by state, then filtering what
    is left by city, and the other way round. *)
Theorem filterIncidents_state_then_city (L : list IncidentRecord)
    (stateFilter cityFilter : string) :
  filterIncidents L stateFilter cityFilter
    = filterIncidents (filterIncidents L stateFilter EmptyString) EmptyString cityFilter
  /\ filterIncidents L stateFilter cityFilter
     = filterIncidents (filterIncidents L EmptyString cityFilter) stateFilter EmptyString.
Proof.
  unfold filterIncidents. rewrite !Array_filter_eq, !List_filter_filter.
  split; apply filter_ext; intros r; unfold matchesIncident; simpl;
    rewrite !includes_empty, ?andb_true_r; simpl; [reflexivity | apply andb_comm].
Qed.

(** ** More on the CSV exports *)

(** X3: reading the exported summary of a table back gives the mapping of
    the table, for every table the code can hold (exact integers, the
    entries of an object in insertion order) that the CSV can carry (at
    least one year, category names free of double quotes and newlines,
    one cell per year, each a number or a separator-free text that does
    not read as a number): the export loses nothing of such a table,
    negative numbers and text cells included. *)
Theorem summary_csv_round_trip_any_table (t : YearlyMetricTable) :
  object_table t = true ->
  plain_table t = true ->
  parseSummaryCSV (summaryCSVContent t) = Some (table_mapping t).
Proof. intros _. apply parseSummaryCSV_summaryCSVContent. Qed.

Lemma summary_csv_round_trip_any_table_witness :
  let t := {| years := [2023; 2024]%Z;
              categories := [("Net change", [Num (-12); Str "n/a"]);
                             ("Total", [Num 0; Num 7])] |} in
  parseSummaryCSV (summaryCSVContent t) = Some (table_mapping t).
Proof. apply summary_csv_round_trip_any_table; reflexivity. Defined.

Lemma saveBlob_cleans_up (csvContent name : string) (b : Browser) :
  browser_ok b = true ->
  objectURLs (saveBlob csvContent name b) = objectURLs b
  /\ nextObjectURL (saveBlob csvContent name b) = S (nextObjectURL b)
  /\ browser_ok (saveBlob csvContent name b) = true.
Proof.
  unfold browser_ok, saveBlob, createObjectURL, clickAnchor, lookupObjectURL,
    revokeObjectURL.
  simpl. rewrite Nat.eqb_refl. simpl. rewrite Nat.eqb_refl. simpl.
  generalize (nextObjectURL b) as next. intros next H.
  assert (Hkeep : List.filter (fun e : nat * Blob => negb (Nat.eqb (fst e) next)) (objectURLs b)
                  = objectURLs b).
  { induction (objectURLs b) as [|e urls IH]; [reflexivity |].
    cbn [forallb] in H. apply andb_true_iff in H as [He Hurls].
    apply Nat.ltb_lt in He. cbn [List.filter].
    destruct (Nat.eqb_spec (fst e) next) as [E | _]; [lia |].
    simpl. now rewrite (IH Hurls). }
  rewrite Hkeep. repeat split.
  induction (objectURLs b) as [|e urls IH]; [reflexivity |].
  cbn [forallb] in *. apply andb_true_iff in H as [He Hurls].
  apply Nat.ltb_lt in He. apply andb_true_iff. split.
  - apply Nat.ltb_lt. lia.
  - apply IH; [exact Hurls |].
    cbn [List.filter] in Hkeep.
    destruct (negb (Nat.eqb (fst e) next)); [now injection Hkeep |].
    exfalso. apply (f_equal (@List.length _)) in Hkeep.
    pose proof (filter_length_le (fun e0 : nat * Blob => negb (Nat.eqb (fst e0) next)) urls).
    simpl in Hkeep. lia.
Qed.

(** X5: in a browser whose live object URLs were all handed out earlier, an
    export leaves exactly the object URLs it found: the one it creates for
    its blob is revoked again, whichever of the two exports it is and
    whatever the incident list; the browser stays such a browser. *)
Theorem exports_leak_no_object_url (b : Browser) (filtered : list IncidentRecord)
    (now : string) :
  browser_ok b = true ->
  objectURLs (downloadSummaryCSV b) = objectURLs b
  /\ browser_ok (downloadSummaryCSV b) = true
  /\ objectURLs (downloadFilteredIncidentsCSV filtered now b) = objectURLs b
  /\ browser_ok (downloadFilteredIncidentsCSV filtered now b) = true.
Proof.
  intros H. unfold downloadSummaryCSV, downloadFilteredIncidentsCSV.
  destruct (saveBlob_cleans_up (summaryCSVContent GVA_10_YEAR_REVIEW)
              "gva_10yr_summary.csv" b H) as (H1 & _ & H2).
  split; [exact H1 |]. split; [exact H2 |].
  destruct (Nat.eqb (List.length filtered) 0); [now split |].
  destruct (saveBlob_cleans_up (incidentsCSVContent filtered) (incidentsFileName now) b H)
    as (H3 & _ & H4).
  now split.
Qed.

Lemma exports_leak_no_object_url_witness :
  let b := {| objectURLs := [(3, {| blobParts := "kept"; blobType := "text/plain" |})];
              nextObjectURL := 5; downloads := [] |} in
  objectURLs (downloadFilteredIncidentsCSV MOCK_DATA "2025-01-09T08:00:00.000Z" b)
  = objectURLs b.
Proof.
  intros b.
  destruct (exports_leak_no_object_url b MOCK_DATA "2025-01-09T08:00:00.000Z" eq_refl)
    as (_ & _ & H & _).
  exact H.
Defined.

(** X6: the name of the incident export carries what precedes the first [T]
    of the timestamp, the calendar date of an ISO timestamp. *)
Theorem incidentsFileName_date (day rest : string) :
  avoids "T" day = true ->
  incidentsFileName (day ++ "T" ++ rest) = "gva_filtered_incidents_" ++ day ++ ".csv".
Proof.
  intros H. unfold incidentsFileName.
  change (day ++ "T" ++ rest) with (day ++ String "T" rest).
  now rewrite (String_split_app "T" day rest H).
Qed.

Lemma incidentsFileName_date_witness :
  incidentsFileName ("2025-01-09" ++ "T" ++ "08:15:30.250Z")
  = "gva_filtered_incidents_" ++ "2025-01-09" ++ ".csv".
Proof. apply incidentsFileName_date. reflexivity. Defined.

(** ** More on the chat panel *)

Lemma exchanges_snoc (n : nat) :
  (exchanges n ++ [user; assistant])%list = exchanges (S n).
Proof.
  induction n as [|n IH]; [reflexivity |].
  cbn [exchanges app]. cbn [exchanges] in IH. now rewrite IH.
Qed.

Lemma chatStep_history_shape (st : ChatState) (ev : ChatEvent) :
  chat_invariant st ->
  (exists n, map role (chatHistory st)
             = (exchanges n ++ if isTyping st then [user] else [])%list) ->
  exists n, map role (chatHistory (chatStep st ev))
            = (exchanges n ++ if isTyping (chatStep st ev) then [user] else [])%list.
Proof.
  intros I [n Hn]. destruct ev as [text | | response |]; simpl.
  - now exists n.
  - unfold handleSendMessage.
    destruct (negb (truthy_string (trim (userInput st)))); simpl; [now exists n |].
    destruct (isTyping st) eqn:Ht; simpl.
    + exists n. now rewrite Ht.
    + exists n. rewrite map_app, Hn, app_nil_r. reflexivity.
  - unfold handleSendMessage_resume. destruct (inFlight st) as [|m rest] eqn:E.
    + now exists n.
    + destruct I as [I | [Ht _]]; [congruence |]. rewrite Ht in Hn.
      exists (S n). simpl. rewrite map_app, Hn, app_nil_r, <- app_assoc.
      apply exchanges_snoc.
  - now exists n.
Qed.

(** X7: after any sequence of events the history is a row of completed
    exchanges, a user message followed by the assistant's answer, with one
    more user message at the end exactly while [isTyping] is set: no
    answer is ever shown without its question, and no two answers or two
    questions in a row. *)
Theorem chatHistory_alternates (evs : list ChatEvent) :
  exists n, map role (chatHistory (chatRun evs))
            = (exchanges n ++ if isTyping (chatRun evs) then [user] else [])%list.
Proof.
  unfold chatRun. induction evs as [|ev evs IH] using rev_ind.
  - now exists 0.
  - rewrite fold_left_app. simpl.
    apply chatStep_history_shape; [apply (chatRun_invariant evs) | exact IH].
Qed.

Lemma chatStep_locked (st : ChatState) (ev : ChatEvent) :
  isTyping st = true -> inFlight st = [] ->
  isTyping (chatStep st ev) = true /\ inFlight (chatStep st ev) = []
  /\ chatHistory (chatStep st ev) = chatHistory st.
Proof.
  intros Ht Hf. destruct ev as [text | | response |]; simpl.
  - auto.
  - unfold handleSendMessage. rewrite Ht, orb_true_r. auto.
  - unfold handleSendMessage_resume. rewrite Hf. auto.
  - rewrite Hf. auto.
Qed.

(** X8: when the pending call rejects, the panel is stuck: [isTyping] stays
    set, so whatever is typed, submitted or delivered afterwards no call is
    issued again and the history never changes. *)
Theorem chat_stuck_after_rejection (st : ChatState) (m : string) (later : list ChatEvent) :
  isTyping st = true -> inFlight st = [m] ->
  let st' := fold_left chatStep later (chatStep st Rejected) in
  isTyping st' = true /\ inFlight st' = [] /\ chatHistory st' = chatHistory st.
Proof.
  intros Ht Hf. cbv zeta.
  assert (H0 : isTyping (chatStep st Rejected) = true
               /\ inFlight (chatStep st Rejected) = []
               /\ chatHistory (chatStep st Rejected) = chatHistory st).
  { simpl. rewrite Hf. auto. }
  generalize dependent (chatStep st Rejected). intros st0 (H1 & H2 & H3).
  rewrite <- H3. clear H3 Ht Hf. revert st0 H1 H2.
  induction later as [|ev later IH]; intros st0 H1 H2; [auto |].
  simpl. destruct (chatStep_locked st0 ev H1 H2) as (H1' & H2' & H3').
  rewrite <- H3'. now apply IH.
Qed.

Lemma chat_stuck_after_rejection_witness :
  let st := chatRun [Typed "hello"; Submitted] in
  let st' := fold_left chatStep [Typed "again"; Submitted; Resolved "late"]
               (chatStep st Rejected) in
  isTyping st' = true /\ inFlight st' = [] /\ chatHistory st' = chatHistory st.
Proof. apply (chat_stuck_after_rejection _ "hello"); reflexivity. Defined.

Lemma trimEnd_empty_iff (s : string) : trimEnd s = EmptyString <-> all_white s = true.
Proof.
  induction s as [|c s IH]; [now split |].
  cbn [trimEnd all_white]. rewrite andb_true_iff, <- IH.
  destruct (trimEnd s) as [|d r].
  - destruct (isWhiteSpace c); split; intros H; try discriminate; auto.
    destruct H. discriminate.
  - split; [discriminate | intros [_ H]; discriminate].
Qed.

Lemma all_white_trimStart (s : string) : all_white (trimStart s) = all_white s.
Proof.
  induction s as [|c s IH]; [reflexivity |].
  cbn [trimStart all_white]. destruct (isWhiteSpace c) eqn:E; [exact IH |].
  cbn [all_white]. now rewrite E.
Qed.

Lemma trim_empty_iff (s : string) : trim s = EmptyString <-> all_white s = true.
Proof. unfold trim. now rewrite trimEnd_empty_iff, all_white_trimStart. Qed.

(** X9: a submit is dropped exactly when a call is pending or the input holds
    nothing but white space; otherwise it issues one call, with the input
    as typed (not trimmed), and clears the input. *)
Theorem handleSendMessage_sends_iff (st : ChatState) :
  (handleSendMessage st = st <-> isTyping st = true \/ all_white (userInput st) = true)
  /\ (handleSendMessage st <> st ->
      inFlight (handleSendMessage st) = (inFlight st ++ [userInput st])%list
      /\ userInput (handleSendMessage st) = EmptyString).
Proof.
  unfold handleSendMessage.
  destruct (isTyping st) eqn:Ht.
  - rewrite orb_true_r. split; [tauto | congruence].
  - rewrite orb_false_r. destruct (trim (userInput st)) as [|c r] eqn:Et; simpl.
    + apply trim_empty_iff in Et. split; [tauto | congruence].
    + assert (Hw : all_white (userInput st) <> true).
      { intros Hw. apply trim_empty_iff in Hw. congruence. }
      split; [| auto]. split.
      * intros H. apply (f_equal isTyping) in H. simpl in H. congruence.
      * intros [H | H]; [discriminate | contradiction].
Qed.

(** ** More on the AI gateway *)

(** The value a resource lookup resolves to, by the answers of the SDK. *)
Lemma findLocalSafetyResources_result (rt : Runtime) (lat lng : option spec_float)
    (w : World) :
  fst (findLocalSafetyResources rt lat lng w)
  = Return
      match GoogleGenAI_new rt (clock w) (or_string (API_KEY rt) EmptyString),
            models_generateContent rt (S (clock w)) (resourcesRequest rt lat lng) with
      | Return _, Return response =>
          {| text := or_string (response_text response) "No resources found.";
             sources := or_array (groundingChunksOf response) |}
      | _, _ => resourcesFallback
      end.
Proof.
  run_gateway.
  destruct (GoogleGenAI_new rt (clock w) _) as [[] | e]; [| reflexivity].
  now destruct (models_generateContent rt (S (clock w)) _).
Qed.

Lemma findLocalSafetyResources_text (rt : Runtime)
    (lat lng : option spec_float) (w : World) :
  exists r, fst (findLocalSafetyResources rt lat lng w) = Return r /\ text r <> EmptyString.
Proof.
  rewrite findLocalSafetyResources_result. eexists. split; [reflexivity |].
  destruct (GoogleGenAI_new rt (clock w) _) as [[] | e];
    [destruct (models_generateContent rt (S (clock w)) _) as [response | e] |];
    simpl; try discriminate.
  now apply or_string_truthy.
Qed.


(** X11: a grounded call makes one attempt: a request goes out exactly when the
    client could be built, and then only one, whether it succeeds or not;
    what it logs is the error of a failure, once, and nothing on success. *)
Theorem grounded_calls_single_attempt (rt : Runtime) (lat lng : option spec_float)
    (w : World) :
  let client := GoogleGenAI_new rt (clock w) (or_string (API_KEY rt) EmptyString) in
  let attempt (request : GenerateContentParameters) :=
    match client with Return _ => [request] | Throw _ => [] end in
  let logged (label : string) (request : GenerateContentParameters) :=
    match client, models_generateContent rt (S (clock w)) request with
    | Return _, Return _ => []
    | Throw e, _ | Return _, Throw e => [(label, e)]
    end in
  requests (snd (generateEnhancedDataReport rt w))
    = (requests w ++ attempt (reportRequest rt))%list
  /\ console (snd (generateEnhancedDataReport rt w))
     = (console w ++ logged "Enhanced Report Error:" (reportRequest rt))%list
  /\ requests (snd (findLocalSafetyResources rt lat lng w))
     = (requests w ++ attempt (resourcesRequest rt lat lng))%list
  /\ console (snd (findLocalSafetyResources rt lat lng w))
     = (console w ++ logged "Maps Grounding Error:" (resourcesRequest rt lat lng))%list.
Proof.
  run_gateway.
  destruct (GoogleGenAI_new rt (clock w) _) as [[] | e]; simpl.
  - destruct (models_generateContent rt (S (clock w)) (reportRequest rt));
      destruct (models_generateContent rt (S (clock w)) (resourcesRequest rt lat lng));
      simpl; rewrite ?app_nil_r; repeat split; reflexivity.
  - rewrite ?app_nil_r. repeat split; reflexivity.
Qed.

(** X12: behind an endpoint whose answers do not depend on when it is asked, a
    second report resolves to the very value the first one resolved to. *)
Theorem generateEnhancedDataReport_repeatable (rt : Runtime) (w : World) :
  (forall n m key, GoogleGenAI_new rt n key = GoogleGenAI_new rt m key) ->
  (forall n m request,
     models_generateContent rt n request = models_generateContent rt m request) ->
  fst (generateEnhancedDataReport rt (snd (generateEnhancedDataReport rt w)))
  = fst (generateEnhancedDataReport rt w).
Proof. apply generateEnhancedDataReport_twice. Qed.

Lemma generateEnhancedDataReport_repeatable_witness :
  fst (generateEnhancedDataReport Mock.refusing
         (snd (generateEnhancedDataReport Mock.refusing initialWorld)))
  = fst (generateEnhancedDataReport Mock.refusing initialWorld).
Proof. apply generateEnhancedDataReport_repeatable; reflexivity. Defined.

(** ** More on the chat session *)

Lemma exec_other_chat (rt : Runtime) (w : World) (call : Call) (i : nat) (chat : Chat) :
  session_valid w ->
  heap w !! i = Some chat -> currentChat w <> Some i ->
  heap (exec rt w call) !! i = Some chat /\ currentChat (exec rt w call) <> Some i.
Proof.
  intros V Hi Hcur.
  assert (Hlt : i < List.length (heap w)) by (apply lookup_lt_is_Some; eauto).
  destruct call as [| lat lng | | message]; simpl.
  - destruct (grounded_calls_frame rt w None None) as (Hc & Hh & _).
    now rewrite Hc, Hh.
  - destruct (grounded_calls_frame rt w lat lng) as (_ & _ & Hc & Hh).
    now rewrite Hc, Hh.
  - pose proof (startProChat_run rt w) as H.
    destruct (GoogleGenAI_new rt (clock w) _) as [[] | e];
      [destruct (chats_create rt (S (clock w)) _) as [[] | e] |];
      destruct H as (_ & Hc & Hh); rewrite Hc, Hh; try (split; assumption).
    split; [now rewrite lookup_app_l | intros [= E]; lia].
  - destruct (currentChat w) as [c |] eqn:Ecur.
    + destruct (lookup_lt_is_Some_2 (heap w) c (V c Ecur)) as [chat' Hchat'].
      destruct (sendChatMessage_active rt message w c chat' Ecur Hchat')
        as (r & w' & Hrun & Hc & Hh & _).
      rewrite Hrun. simpl. rewrite Hc, Hh. split; [| exact Hcur].
      rewrite list_lookup_insert_ne; [exact Hi | congruence].
    + pose proof (sendChatMessage_uninitialized rt message w Ecur) as H.
      destruct (GoogleGenAI_new rt (clock w) _) as [[] | e];
        [destruct (chats_create rt (S (clock w)) _) as [[] | e] |];
        destruct H as (_ & Hc & Hh); rewrite Hc, Hh; try (split; [assumption | discriminate]).
      split; [now rewrite lookup_app_l | intros [= E]; lia].
Qed.

(** X13: a chat object that is not the current session is never written
    again: once a session has been replaced, whatever calls follow, what
    was sent on it stays as it was and it never becomes current again. *)
Theorem replaced_session_is_frozen (rt : Runtime) (before after : list Call)
    (i : nat) (chat : Chat) :
  let w := execAll rt before initialWorld in
  heap w !! i = Some chat -> currentChat w <> Some i ->
  heap (execAll rt after w) !! i = Some chat
  /\ currentChat (execAll rt after w) <> Some i.
Proof.
  intros w. pose proof (execAll_session_valid rt before) as V. fold w in V.
  generalize dependent w. intros w V. revert w V.
  induction after as [|call after IH]; intros w V Hi Hcur; [now split |].
  unfold execAll. simpl.
  destruct (exec_other_chat rt w call i chat V Hi Hcur) as [Hi' Hcur'].
  apply (IH (exec rt w call)); [now apply exec_session_valid | exact Hi' | exact Hcur'].
Qed.

Lemma replaced_session_is_frozen_witness :
  let before := [CallSendChatMessage "first"; CallStartProChat] in
  let after := [CallSendChatMessage "second"; CallGenerateReport; CallStartProChat] in
  let w := execAll Mock.answering before initialWorld in
  (sent <$> heap (execAll Mock.answering after w) !! 0) = Some ["first"]
  /\ currentChat (execAll Mock.answering after w) <> Some 0.
Proof.
  intros before after w.
  destruct (replaced_session_is_frozen Mock.answering before after 0
              {| created_with := proChatParameters; sent := ["first"] |})
    as [H1 H2]; [reflexivity | discriminate |].
  fold w in H1, H2. split; [now rewrite H1 | exact H2].
Defined.

(** X14: with a session in place, a series of messages goes to that one
    session in the order of the calls, whether the sends succeed or fail:
    afterwards the session holds what it held followed by the messages, it
    is still the current one, and no other chat object was created. *)
Theorem messages_accumulate_in_order (rt : Runtime) (messages : list string)
    (w : World) (c : nat) (chat : Chat) :
  currentChat w = Some c -> heap w !! c = Some chat ->
  let w' := execAll rt (map CallSendChatMessage messages) w in
  currentChat w' = Some c
  /\ heap w' !! c = Some {| created_with := created_with chat;
                            sent := (sent chat ++ messages)%list |}
  /\ List.length (heap w') = List.length (heap w).
Proof.
  revert w chat. induction messages as [|m messages IH]; intros w chat Hc Hh; cbv zeta.
  - simpl. rewrite app_nil_r. destruct chat. auto.
  - unfold execAll. cbn [map fold_left exec].
    destruct (sendChatMessage_active rt m w c chat Hc Hh) as (r & w1 & Hrun & Hc1 & Hh1 & _).
    rewrite Hrun. cbn [snd].
    assert (Hlt : c < List.length (heap w)) by (apply lookup_lt_is_Some; eauto).
    assert (Hh1' : heap w1 !! c = Some {| created_with := created_with chat;
                                          sent := (sent chat ++ [m])%list |}).
    { rewrite Hh1. now apply list_lookup_insert_eq. }
    destruct (IH w1 _ Hc1 Hh1') as (H1 & H2 & H3). unfold execAll in H1, H2, H3.
    split; [exact H1 |]. split.
    + rewrite H2. cbn [created_with sent]. now rewrite <- app_assoc.
    + rewrite H3, Hh1. apply length_insert.
Qed.

Lemma messages_accumulate_in_order_witness :
  let w := execAll Mock.refusing [CallStartProChat] initialWorld in
  let w' := execAll Mock.refusing (map CallSendChatMessage ["a"; "b"; "c"]) w in
  currentChat w' = Some 0
  /\ (sent <$> heap w' !! 0) = Some ["a"; "b"; "c"]
  /\ List.length (heap w') = 1.
Proof.
  intros w w'.
  destruct (messages_accumulate_in_order Mock.refusing ["a"; "b"; "c"] w 0
              {| created_with := proChatParameters; sent := [] |} eq_refl eq_refl)
    as (H1 & H2 & H3).
  fold w' in H1, H2, H3. split; [exact H1 |]. split; [now rewrite H2 | exact H3].
Defined.

(** ** The handlers that call the gateway *)

(** X15: a click on the report button raises the loading flag, which stays
    up as long as the awaited call has not settled. The call cannot
    reject: when it settles it has resolved, and the handler then lowers
    the flag and stores the value it resolved to, a report or the fixed
    fallback, whose text is never empty. *)
Theorem handleGenerateReport_settles_cleared (rt : Runtime) (st : ReportPanel) (w : World) :
  isGeneratingReport (handleGenerateReport st) = true
  /\ reportData (handleGenerateReport st) = reportData st
  /\ exists data,
       fst (generateEnhancedDataReport rt w) = Return data
       /\ text data <> EmptyString
       /\ handleGenerateReport_resume (fst (generateEnhancedDataReport rt w))
            (handleGenerateReport st)
          = {| reportData := Some data; isGeneratingReport := false |}.
Proof.
  split; [reflexivity |]. split; [reflexivity |].
  rewrite generateEnhancedDataReport_result. eexists.
  split; [reflexivity |]. split; [| reflexivity].
  destruct (GoogleGenAI_new rt (clock w) _) as [[] | e];
    [destruct (models_generateContent rt (S (clock w)) _) as [response | e] |];
    simpl; try discriminate.
  now apply or_string_truthy.
Qed.

Lemma resourcesRequest_falsy (rt : Runtime) (la ln : spec_float) :
  truthy_number la && truthy_number ln = false ->
  resourcesRequest rt (Some la) (Some ln) = resourcesRequest rt None None.
Proof.
  intros H. unfold resourcesRequest, locationPrompt, latAndLng. now rewrite H.
Qed.

(** X16: a click on the resource button raises the loading flag. By what
    the browser does with the position request: when no callback is ever
    called no lookup is made (and the flag stays up); when there is no
    geolocation or the position is refused the lookup is made without
    coordinates; when a position is reported the lookup is made with it,
    and is the lookup without coordinates when one of them is 0 or not a
    number. A lookup cannot reject: when it settles it has resolved, and
    the flag is lowered with a non-empty answer stored; until then the
    flag stays up. *)
Theorem handleMapsGrounding_outcomes (rt : Runtime) (nav : Geolocation) (st : IntelPanel)
    (w : World) :
  let settled (lat lng : option spec_float) :=
    exists data,
      fst (findLocalSafetyResources rt lat lng w) = Return data
      /\ text data <> EmptyString
      /\ handleMapsGrounding_resume (fst (findLocalSafetyResources rt lat lng w))
           (handleMapsGrounding st)
         = {| intelResponse := Some data; isIntelLoading := false |} in
  isIntelLoading (handleMapsGrounding st) = true
  /\ intelResponse (handleMapsGrounding st) = intelResponse st
  /\ match nav with
     | GeoSilent => lookupArguments nav = None
     | GeoMissing | GeoError =>
         lookupArguments nav = Some (None, None) /\ settled None None
     | GeoPosition la ln =>
         lookupArguments nav = Some (Some la, Some ln)
         /\ settled (Some la) (Some ln)
         /\ (truthy_number la && truthy_number ln = false ->
             findLocalSafetyResources rt (Some la) (Some ln) w
             = findLocalSafetyResources rt None None w)
     end.
Proof.
  cbv zeta. split; [reflexivity |]. split; [reflexivity |].
  assert (H : forall lat lng,
            exists data,
              fst (findLocalSafetyResources rt lat lng w) = Return data
              /\ text data <> EmptyString
              /\ handleMapsGrounding_resume (fst (findLocalSafetyResources rt lat lng w))
                   (handleMapsGrounding st)
                 = {| intelResponse := Some data; isIntelLoading := false |}).
  { intros lat lng.
    destruct (findLocalSafetyResources_text rt lat lng w) as (r & Hr & Ht).
    exists r. rewrite Hr. auto. }
  destruct nav as [| la ln | |].
  - split; [reflexivity | apply H].
  - split; [reflexivity |]. split; [apply H |].
    intros Hz. unfold findLocalSafetyResources.
    now rewrite (resourcesRequest_falsy rt la ln Hz).
  - split; [reflexivity | apply H].
  - reflexivity.
Qed.

Lemma handleSendMessage_open (st : ChatState) :
  isTyping st = false -> all_white (userInput st) = false -> inFlight st = [] ->
  handleSendMessage st
  = {| chatHistory :=
         (chatHistory st ++ [{| role := user; content := userInput st |}])%list;
       userInput := EmptyString;
       isTyping := true;
       inFlight := [userInput st] |}.
Proof.
  intros Ht Hw Hf. unfold handleSendMessage. rewrite Ht, Hf, orb_false_r.
  destruct (trim (userInput st)) eqn:Et; [| reflexivity].
  apply trim_empty_iff in Et. congruence.
Qed.

Lemma exec_stays_active (rt : Runtime) (w : World) (call : Call) :
  session_valid w -> currentChat w <> None -> currentChat (exec rt w call) <> None.
Proof.
  intros V Hcur. destruct call as [| lat lng | | message]; simpl.
  - destruct (grounded_calls_frame rt w None None) as (Hc & _). now rewrite Hc.
  - destruct (grounded_calls_frame rt w lat lng) as (_ & _ & Hc & _). now rewrite Hc.
  - pose proof (startProChat_run rt w) as H.
    destruct (GoogleGenAI_new rt (clock w) _) as [[] | e];
      [destruct (chats_create rt (S (clock w)) _) as [[] | e] |];
      destruct H as (_ & Hc & _); rewrite Hc; [discriminate | exact Hcur | exact Hcur].
  - destruct (currentChat w) as [c |] eqn:Ecur; [| congruence].
    destruct (lookup_lt_is_Some_2 (heap w) c (V c Ecur)) as [chat Hchat].
    destruct (sendChatMessage_active rt message w c chat Ecur Hchat)
      as (r & w' & Hrun & Hc & _).
    rewrite Hrun. simpl. rewrite Hc. discriminate.
Qed.

Lemma afterMount_active (rt : Runtime) (calls : list Call) :
  currentChat (afterMount rt []) <> None ->
  currentChat (afterMount rt calls) <> None /\ session_valid (afterMount rt calls).
Proof.
  intros Hmount. split; [| apply (execAll_session_valid rt (CallStartProChat :: calls))].
  induction calls as [|call calls IH] using rev_ind; [exact Hmount |].
  unfold afterMount, execAll in *.
  change (CallStartProChat :: calls ++ [call])%list
    with ((CallStartProChat :: calls) ++ [call])%list.
  rewrite fold_left_app. simpl.
  apply exec_stays_active; [| exact IH].
  apply (execAll_session_valid rt (CallStartProChat :: calls)).
Qed.

(** X17: when the mount of the component created the chat session, then
    after any calls of the module a submit from an idle panel with an
    input that is not blank sets [isTyping] and sends the input, as typed,
    on the current session, which exists. That call cannot reject: when it
    settles it has resolved to a non-empty text (the answer or the
    fallback), and the panel is idle again with the question and that
    text added to the history; until then [isTyping] stays set. *)
Theorem submit_after_mount_settles_idle (rt : Runtime) (calls : list Call)
    (st : ChatState) :
  currentChat (afterMount rt []) <> None ->
  isTyping st = false -> all_white (userInput st) = false -> inFlight st = [] ->
  let w := afterMount rt calls in
  isTyping (handleSendMessage st) = true
  /\ inFlight (handleSendMessage st) = [userInput st]
  /\ exists c chat reply,
       currentChat w = Some c /\ heap w !! c = Some chat
       /\ fst (sendChatMessage rt (userInput st) w) = Return reply
       /\ reply <> EmptyString
       /\ heap (snd (sendChatMessage rt (userInput st) w))
          = <[c := {| created_with := created_with chat;
                      sent := (sent chat ++ [userInput st])%list |}]> (heap w)
       /\ handleSendMessage_settle (fst (sendChatMessage rt (userInput st) w))
            (handleSendMessage st)
          = {| chatHistory :=
                 (chatHistory st ++ [{| role := user; content := userInput st |};
                                     {| role := assistant; content := reply |}])%list;
               userInput := EmptyString;
               isTyping := false;
               inFlight := [] |}.
Proof.
  intros Hmount Ht Hw Hf w.
  rewrite (handleSendMessage_open st Ht Hw Hf).
  split; [reflexivity |]. split; [reflexivity |].
  destruct (afterMount_active rt calls Hmount) as [Hact V]. fold w in Hact, V.
  destruct (currentChat w) as [c |] eqn:Hc; [| congruence].
  destruct (lookup_lt_is_Some_2 (heap w) c (V c Hc)) as [chat Hchat].
  destruct (sendChatMessage_active rt (userInput st) w c chat Hc Hchat)
    as (r & w1 & Hrun & _ & Hheap & Hr).
  exists c, chat, r. rewrite Hrun. cbn [fst snd].
  split; [reflexivity |]. split; [exact Hchat |]. split; [reflexivity |].
  split; [| split; [exact Hheap |]].
  - destruct (chat_sendMessage rt (clock w) chat (userInput st)); subst r.
    + now apply or_string_truthy.
    + discriminate.
  - unfold handleSendMessage_settle, handleSendMessage_resume. cbn.
    now rewrite <- app_assoc.
Qed.

Lemma submit_after_mount_settles_idle_witness :
  let st := chatRun [Typed "  any news? "] in
  let w := afterMount Mock.refusing [CallGenerateReport; CallStartProChat] in
  exists reply,
    fst (sendChatMessage Mock.refusing (userInput st) w) = Return reply
    /\ reply <> EmptyString
    /\ map content
         (chatHistory (handleSendMessage_settle
                         (fst (sendChatMessage Mock.refusing (userInput st) w))
                         (handleSendMessage st)))
       = ["  any news? "; reply].
Proof.
  intros st w.
  destruct (submit_after_mount_settles_idle Mock.refusing
              [CallGenerateReport; CallStartProChat] st)
    as (_ & _ & c & chat & reply & _ & _ & Hrun & Hne & _ & Hst);
    [discriminate | reflexivity | reflexivity | reflexivity |].
  fold w in Hrun, Hst. exists reply.
  split; [exact Hrun |]. split; [exact Hne |]. rewrite Hst. reflexivity.
Defined.

(** ** Views *)

(** X19: the archive link of the incident detail: there is a link exactly
    when [source_link] is not empty; its target always starts with
    [http], a [source_link] that already does is kept as it is, any other
    is taken as a path on the archive's site, and resolving a target
    again changes nothing. *)
Theorem sourceLinkHref_absolute (source_link : string) :
  (sourceLinkHref source_link = None <-> source_link = EmptyString)
  /\ match sourceLinkHref source_link with
     | Some href =>
         startsWith href "http" = true
         /\ sourceLinkHref href = Some href
         /\ (if startsWith source_link "http" then href = source_link
             else href = "https://www.gunviolencearchive.org" ++ source_link)
     | None => True
     end.
Proof.
  unfold sourceLinkHref. destruct source_link as [|c link].
  - split; [split; reflexivity | exact I].
  - cbn [truthy_string]. split; [split; discriminate |].
    destruct (startsWith (String c link) "http") eqn:E.
    + cbn [truthy_string]. rewrite E. auto.
    + repeat split.
Qed.

Lemma clickWorkflowNode_known (active : string) (k : nat) :
  In active ["driver"; "nav"; "parse"] ->
  In (clickWorkflowNode active k) ["driver"; "nav"; "parse"].
Proof.
  intros H. unfold clickWorkflowNode.
  destruct k as [|[|[|k]]]; simpl;
    [left; reflexivity | right; left; reflexivity | right; right; left; reflexivity |].
  now destruct k.
Qed.

(** X20: whatever nodes of the research pipeline are clicked, in whatever
    order, the active step is one of the steps: the lookup of the detail
    pane finds it, and exactly one node is drawn active. *)
Theorem active_workflow_step_found (clicks : list nat) :
  let active := fold_left clickWorkflowNode clicks initialWorkflowStep in
  (exists step, findActiveStep active = Some step
                /\ step_id step = active /\ In step workflowSteps)
  /\ List.length (List.filter (isActive active) workflowSteps) = 1.
Proof.
  cbv zeta.
  assert (H : In (fold_left clickWorkflowNode clicks initialWorkflowStep)
                 ["driver"; "nav"; "parse"]).
  { induction clicks as [|k clicks IH] using rev_ind; [left; reflexivity |].
    rewrite fold_left_app. simpl. now apply clickWorkflowNode_known. }
  destruct H as [<- | [<- | [<- | []]]];
    (split; [eexists; split; [reflexivity | split; [reflexivity | simpl; auto]]
            | reflexivity]).
Qed.
